(** * Contract risk classifier: a shallow embedding of
    [contract_risk_classifier.py] and the properties of its label
    normaliser, column processor and interactive driver.

    Python values are modelled as follows.
    - [str] is [string]: a sequence of characters whose code points lie in
      0..255 (the Latin-1 range).  [str.lower], [str.strip] and [int] are
      given on that range exactly as CPython defines them there.
    - the value of a cell of a pandas frame is [NaN] (missing) or a text.
    - [print], [input], the agent framework, the file system and pandas'
      reader are effects: they are recorded as events, and the external
      services are the fields of the [Backend] class. *)

From Stdlib Require Import ZArith Lia Ascii String.
From stdpp Require Import base option list strings gmap pretty.

Local Open Scope bool_scope.

(* [simpl] may unfold the concatenation of strings on a constructor. *)
#[local] Arguments String.append !_ _ / : simpl nomatch.

(** ** Python [str] on the Latin-1 range *)

Module Str.

Definition code (c : ascii) : N := N_of_ascii c.

(** [str.isspace] for one character: U+0009..U+000D, U+001C..U+0020,
    U+0085 and U+00A0. *)
Definition isspace (c : ascii) : bool :=
  let n := code c in
  ((9 <=? n) && (n <=? 13) || (28 <=? n) && (n <=? 32)
   || (n =? 133) || (n =? 160))%N.

(** [str.lower] for one character: A..Z and the accented capitals
    U+00C0..U+00DE (without the multiplication sign U+00D7) move 32 up. *)
Definition lower_char (c : ascii) : ascii :=
  let n := code c in
  (if (65 <=? n) && (n <=? 90)
      || (192 <=? n) && (n <=? 222) && negb (n =? 215)
   then ascii_of_N (n + 32) else c)%N.

Fixpoint lower (s : string) : string :=
  match s with
  | EmptyString => EmptyString
  | String c s' => String (lower_char c) (lower s')
  end.

Definition is_empty (s : string) : bool :=
  match s with EmptyString => true | String _ _ => false end.

Fixpoint lstrip (s : string) : string :=
  match s with
  | EmptyString => EmptyString
  | String c s' => if isspace c then lstrip s' else s
  end.

Fixpoint rstrip (s : string) : string :=
  match s with
  | EmptyString => EmptyString
  | String c s' =>
      let r := rstrip s' in
      if isspace c && is_empty r then EmptyString else String c r
  end.

(** [s.strip()] *)
Definition strip (s : string) : string := rstrip (lstrip s).

Fixpoint startswith (p s : string) : bool :=
  match p, s with
  | EmptyString, _ => true
  | String a p', String b s' => if Ascii.eqb a b then startswith p' s' else false
  | String _ _, EmptyString => false
  end.

(** [p in s] *)
Fixpoint contains (p s : string) : bool :=
  startswith p s
  || match s with
     | EmptyString => false
     | String _ s' => contains p s'
     end.

(** [s.split(sep)] for a one-character separator: the pieces between the
    separators, of which there is always at least one. *)
Fixpoint split (sep : ascii) (s : string) : list string :=
  match s with
  | EmptyString => [EmptyString]
  | String c s' =>
      if Ascii.eqb c sep then EmptyString :: split sep s'
      else match split sep s' with
           | [] => [String c EmptyString]
           | p :: ps => String c p :: ps
           end
  end.

(** [sep.join(l)] *)
Fixpoint join (sep : string) (l : list string) : string :=
  match l with
  | [] => ""
  | [x] => x
  | x :: rest => x +:+ sep +:+ join sep rest
  end.

End Str.

(** ** Python [int] and [repr] on strings *)

Module Py.

Definition is_digit (c : ascii) : bool :=
  let n := Str.code c in ((48 <=? n) && (n <=? 57))%N.

Definition digit_value (c : ascii) : Z := Z.of_N (Str.code c) - 48.

(** The white space that [int] skips around a literal: U+0009..U+000D,
    the space, U+0085 and U+00A0. *)
Definition int_isspace (c : ascii) : bool :=
  let n := Str.code c in
  ((9 <=? n) && (n <=? 13) || (n =? 32) || (n =? 133) || (n =? 160))%N.

Fixpoint skip_space (s : string) : string :=
  match s with
  | EmptyString => EmptyString
  | String c s' => if int_isspace c then skip_space s' else s
  end.

Fixpoint all_space (s : string) : bool :=
  match s with
  | EmptyString => true
  | String c s' => int_isspace c && all_space s'
  end.

(** The sign of a literal, if it has one, and what follows it. *)
Definition split_sign (s : string) : bool * string :=
  match s with
  | EmptyString => (false, EmptyString)
  | String c s' =>
      if Ascii.eqb c "+" then (false, s')
      else if Ascii.eqb c "-" then (true, s')
      else (false, s)
  end.

Definition starts_with_underscore (s : string) : bool :=
  match s with
  | EmptyString => false
  | String c _ => Ascii.eqb c "_"
  end.

(** The scan of the digits and underscores at the head of a text: the
    value and the number of the digits, whether the last character scanned
    was an underscore, and the rest of the text; [None] when two
    underscores follow each other. *)
Fixpoint scan_digits (acc : Z) (digits : nat) (after_underscore : bool) (s : string)
    : option (Z * nat * bool * string) :=
  match s with
  | EmptyString => Some (acc, digits, after_underscore, EmptyString)
  | String c s' =>
      if is_digit c then scan_digits (10 * acc + digit_value c) (S digits) false s'
      else if Ascii.eqb c "_" then
        if after_underscore then None else scan_digits acc digits true s'
      else Some (acc, digits, after_underscore, s)
  end.

(** The default of [sys.get_int_max_str_digits()], which the program
    does not change. *)
Definition max_str_digits : nat := 4300.

Inductive int_result : Type :=
| IntValue (n : Z)
| IntInvalid
| IntExceedsLimit (digits : nat).

(** [int(s)] in base 10, with the two ways in which it raises
    [ValueError]: white space, a sign, digits with single underscores
    between them, white space; a literal of more than 4300 digits is
    refused before what follows the digits is looked at. *)
Definition int_result_of (s : string) : int_result :=
  let '(negative, body) := split_sign (skip_space s) in
  match scan_digits 0 0 false body with
  | None => IntInvalid
  | Some (value, digits, after_underscore, rest) =>
      if starts_with_underscore body || after_underscore then IntInvalid
      else if (max_str_digits <? digits)%nat then IntExceedsLimit digits
      else if (digits =? 0)%nat then IntInvalid
      else if all_space rest then IntValue (if negative then (- value)%Z else value)
      else IntInvalid
  end.

(** The value of [int(s)]; [None] stands for the [ValueError] it raises. *)
Definition int (s : string) : option Z :=
  match int_result_of s with
  | IntValue n => Some n
  | _ => None
  end.

Definition hex_digit (n : N) : ascii :=
  ascii_of_N (if (n <? 10)%N then 48 + n else 87 + n).

Definition dquote : ascii := "034".
Definition squote : ascii := "039".
Definition backslash : ascii := "092".

Definition printable (c : ascii) : bool :=
  let n := Str.code c in
  ((32 <=? n) && (n <? 127) || (161 <=? n) && negb (n =? 173))%N.

Definition repr_char (quote c : ascii) : string :=
  let n := Str.code c in
  if Ascii.eqb c quote || Ascii.eqb c backslash then String backslash (String c "")
  else if (n =? 9)%N then String backslash "t"
  else if (n =? 10)%N then String backslash "n"
  else if (n =? 13)%N then String backslash "r"
  else if printable c then String c ""
  else String backslash (String "x" (String (hex_digit (n / 16)) (String (hex_digit (n mod 16)) ""))).

Fixpoint repr_body (quote : ascii) (s : string) : string :=
  match s with
  | EmptyString => EmptyString
  | String c s' => repr_char quote c +:+ repr_body quote s'
  end.

(** [repr(s)]: single quotes, unless the text has a single quote and no
    double quote. *)
Definition repr (s : string) : string :=
  let quote :=
    if Str.contains (String squote "") s && negb (Str.contains (String dquote "") s)
    then dquote else squote in
  String quote (repr_body quote s +:+ String quote "").

(** [s[:n]] *)
Fixpoint take (n : nat) (s : string) : string :=
  match n, s with
  | S n', String c s' => String c (take n' s')
  | _, _ => EmptyString
  end.

(** The texts of the two errors of [int(s)]; the first quotes [s] with
    the format [%.200R], which keeps 200 characters of [repr(s)]. *)
Definition invalid_literal_message (s : string) : string :=
  "invalid literal for int() with base 10: " +:+ take 200 (repr s).

Definition exceeds_limit_message (digits : nat) : string :=
  "Exceeds the limit (" +:+ pretty max_str_digits
  +:+ " digits) for integer string conversion: value has " +:+ pretty digits
  +:+ " digits; use sys.set_int_max_str_digits() to increase the limit".

End Py.

(** ** The tabular dataset *)

(** A cell of a frame read from a CSV file: missing, or a text. *)
Inductive cell : Type :=
| NaN
| Text (s : string).

#[global] Instance cell_eq_dec : EqDecision cell.
Proof. solve_decision. Defined.

(** A row maps column names to cells; a frame is its column index and its
    rows in order, the row labels being the positions 0, 1, 2, ... *)
Record DataFrame : Type := {
  columns : list string;
  rows : list (gmap string cell)
}.

(** [df.at[idx, col] = v] *)
Definition set_at (df : DataFrame) (idx : nat) (col : string) (v : cell) : DataFrame :=
  {| columns := columns df; rows := alter (insert col v) idx (rows df) |}.

(** Every row has a cell for every column: what every frame built by
    pandas satisfies. *)
Definition rectangular (df : DataFrame) : Prop :=
  ∀ row col, row ∈ rows df → col ∈ columns df → is_Some (row !! col).

(** ** Exceptions, events and the effect monad *)

(** The exceptions of the class [Exception], which are the ones that the
    handler [except Exception] of [main] catches.  What lies outside that
    class (an interrupt from the keyboard, [SystemExit]) is not
    modelled. *)
Inductive exn : Type :=
| ValueError (msg : string)
| KeyError (key : string)
| EOFError (msg : string)
| ExternalError (msg : string).

(** [str(e)] *)
Definition exn_str (e : exn) : string :=
  match e with
  | ValueError msg => msg
  | KeyError key => Py.repr key
  | EOFError msg => msg
  | ExternalError msg => msg
  end.

Inductive event : Type :=
| Print (line : string)
| PrintFrame (df : DataFrame)
| Prompt (text : string)
| KnowledgeSource (file_paths : list string) (chunk_size chunk_overlap : nat)
| AgentCreated
| ReadCsv (path : string)
| Kickoff (text column_name : string)
| ToCsv (path : string) (df : DataFrame).

(** The external collaborators: the agent framework answering one
    classification request (it may keep state between requests and it
    may raise), the file system and pandas' reader and writer. *)
Class Backend : Type := {
  agent_st : Type;
  kickoff : agent_st → string → string → (exn + string) * agent_st;
  path_exists : string → bool;
  read_csv : string → exn + DataFrame;
  to_csv : string → DataFrame → option exn
}.

Record World `{Backend} : Type := {
  stdin : list string;
  agent : agent_st
}.

Inductive outcome (A : Type) : Type :=
| Returned (a : A)
| Raised (e : exn).
Arguments Returned {A} a.
Arguments Raised {A} e.

Section Effects.
Context `{Backend}.

Definition M (A : Type) : Type := World → outcome A * list event * World.

Definition run {A} (m : M A) (w : World) : outcome A * list event * World := m w.

#[export] Instance M_ret : MRet M := λ A a w, (Returned a, [], w).

#[export] Instance M_bind : MBind M := λ A B f m w,
  match m w with
  | (Returned a, ev1, w1) =>
      match f a w1 with
      | (r, ev2, w2) => (r, ev1 ++ ev2, w2)
      end
  | (Raised e, ev1, w1) => (Raised e, ev1, w1)
  end.

Definition raise {A} (e : exn) : M A := λ w, (Raised e, [], w).

Definition emit (ev : event) : M unit := λ w, (Returned tt, [ev], w).

(** [try: body except Exception as e: handler(e)] *)
Definition try_except {A} (body : M A) (handler : exn → M A) : M A := λ w,
  match body w with
  | (Returned a, ev1, w1) => (Returned a, ev1, w1)
  | (Raised e, ev1, w1) =>
      match handler e w1 with
      | (r, ev2, w2) => (r, ev1 ++ ev2, w2)
      end
  end.

(** [print(line)] *)
Definition print (line : string) : M unit := emit (Print line).

(** [input(prompt)]: the prompt is written, then one line is read. *)
Definition input (prompt : string) : M string := λ w,
  match stdin w with
  | [] => (Raised (EOFError "EOF when reading a line"), [Prompt prompt], w)
  | line :: rest => (Returned line, [Prompt prompt], {| stdin := rest; agent := agent w |})
  end.

(** [pd.read_csv(path)] *)
Definition pd_read_csv (path : string) : M DataFrame := λ w,
  match read_csv path with
  | inl e => (Raised e, [ReadCsv path], w)
  | inr df => (Returned df, [ReadCsv path], w)
  end.

(** [df.to_csv(path, index=False)] *)
Definition df_to_csv (df : DataFrame) (path : string) : M unit := λ w,
  match to_csv path df with
  | Some e => (Raised e, [ToCsv path df], w)
  | None => (Returned tt, [ToCsv path df], w)
  end.

(** [crew.kickoff()] for the task built from [text] and [column_name],
    followed by [str(result)]. *)
Definition crew_kickoff (text column_name : string) : M string := λ w,
  match kickoff (agent w) text column_name with
  | (inl e, a') => (Raised e, [Kickoff text column_name], {| stdin := stdin w; agent := a' |})
  | (inr reply, a') => (Returned reply, [Kickoff text column_name], {| stdin := stdin w; agent := a' |})
  end.

(** [row[col]] *)
Definition getitem (row : gmap string cell) (col : string) : M cell :=
  match row !! col with
  | Some v => mret v
  | None => raise (KeyError col)
  end.

End Effects.

(** ** The program *)

Section Program.
Context `{Backend}.

Definition nl : string := String "010" "".

(** Lines 98-106 of [analyze_text]: the reply of the agent is cleaned
    into one of the two labels. *)
Definition unclear_warning (result_str : string) : string :=
  "Warning: Unclear result from agent: '" +:+ result_str +:+ "'. Defaulting to 'No'".

Definition normalize_reply (result : string) : M string :=
  let result_str := Str.strip result in
  if Str.contains "yes" (Str.lower result_str) then mret "Yes"
  else if Str.contains "no" (Str.lower result_str) then mret "No"
  else print (unclear_warning result_str);; mret "No".

(** [analyze_text(agent, text, column_name)]; the agent is the one of the
    world. *)
Definition analyze_text (text column_name : string) : M string :=
  result ← crew_kickoff text column_name;
  normalize_reply result.

Definition row_progress (idx total : nat) (col : string) : string :=
  "  Analyzing row " +:+ pretty (idx + 1) +:+ "/" +:+ pretty total +:+ ": " +:+ col.

(** The body of [for idx, row in df.iterrows()]: [pending] are the rows
    that [iterrows] has still to yield, as they were when the loop began,
    and [idx] is the label of the first of them. *)
Fixpoint iterrows_loop (col : string) (idx : nat) (pending : list (gmap string cell))
    (df : DataFrame) : M DataFrame :=
  match pending with
  | [] => mret df
  | row :: rest =>
      print (row_progress idx (length (rows df)) col);;
      text_value ← getitem row col;
      match text_value with
      | NaN => iterrows_loop col (S idx) rest df
      | Text s =>
          if Str.is_empty s then iterrows_loop col (S idx) rest df
          else
            result ← analyze_text s col;
            iterrows_loop col (S idx) rest (set_at df idx col (Text result))
      end
  end.

Definition column_missing_warning (col : string) : string :=
  "Warning: Column '" +:+ col +:+ "' not found in CSV file.".

Definition column_banner (col : string) : string :=
  nl +:+ "Processing column: " +:+ col.

(** The loop [for col in text_columns] of [process_csv_file]. *)
Fixpoint for_columns (text_columns : list string) (df : DataFrame) : M DataFrame :=
  match text_columns with
  | [] => mret df
  | col :: rest =>
      if bool_decide (col ∈ columns df) then
        print (column_banner col);;
        df' ← iterrows_loop col 0 (rows df) df;
        for_columns rest df'
      else
        print (column_missing_warning col);;
        for_columns rest df
  end.

(** [create_contract_risk_agent()]: the agent is configured, no request is
    made. *)
Definition create_contract_risk_agent : M unit := emit AgentCreated.

Definition process_csv_file (csv_path : string) (text_columns : list string) : M DataFrame :=
  df ← pd_read_csv csv_path;
  create_contract_risk_agent;;
  for_columns text_columns df.

(** [for i, col in enumerate(df.columns): print(f"{i+1}. {col}")] *)
Fixpoint print_columns (i : nat) (cols : list string) : M unit :=
  match cols with
  | [] => mret tt
  | col :: rest => print (pretty (i + 1) +:+ ". " +:+ col);; print_columns (S i) rest
  end.

Definition invalid_literal (tok : string) : exn :=
  ValueError (Py.invalid_literal_message tok).

Definition exceeds_limit (digits : nat) : exn :=
  ValueError (Py.exceeds_limit_message digits).

(** [[int(idx.strip()) - 1 for idx in tokens]] *)
Fixpoint parse_indices (tokens : list string) : M (list Z) :=
  match tokens with
  | [] => mret []
  | idx :: rest =>
      match Py.int_result_of (Str.strip idx) with
      | Py.IntValue n => indices ← parse_indices rest; mret ((n - 1)%Z :: indices)
      | Py.IntInvalid => raise (invalid_literal (Str.strip idx))
      | Py.IntExceedsLimit digits => raise (exceeds_limit digits)
      end
  end.

(** [[cols[idx] for idx in col_indices if 0 <= idx < len(cols)]] *)
Definition select_columns (cols : list string) (col_indices : list Z) : list string :=
  omap (λ idx : Z,
          if ((0 <=? idx) && (idx <? Z.of_nat (length cols)))%Z
          then cols !! Z.to_nat idx else None)
       col_indices.

(** The [try] block of [main] from [if not text_columns] on. *)
Definition classify_selection (csv_path : string) (text_columns : list string) : M unit :=
  match text_columns with
  | [] => print "No valid columns selected."
  | _ :: _ =>
      print (nl +:+ "Analyzing columns: " +:+ Str.join ", " text_columns);;
      result_df ← process_csv_file csv_path text_columns;
      print (nl +:+ "Classification Complete!");;
      emit (PrintFrame result_df);;
      save_path ← input (nl +:+ "Enter a file path to save results (or press Enter to skip): ");
      if Str.is_empty save_path then mret tt
      else
        df_to_csv result_df save_path;;
        print ("Results saved to " +:+ save_path)
  end.

(** The body of the [try] block of [main]. *)
Definition main_body (csv_path : string) : M unit :=
  df ← pd_read_csv csv_path;
  print (nl +:+ "Available columns:");;
  print_columns 0 (columns df);;
  col_input ← input (nl +:+ "Enter the numbers of text columns to analyze (comma-separated): ");
  col_indices ← parse_indices (Str.split "," col_input);
  let text_columns := select_columns (columns df) col_indices in
  classify_selection csv_path text_columns.

(** [except Exception as e: print(f"An error occurred: {str(e)}")] *)
Definition report_error (e : exn) : M unit :=
  print ("An error occurred: " +:+ exn_str e).

Definition main : M unit :=
  print "Contract Risk Classification System";;
  print "----------------------------------";;
  print "This system analyzes contract text and classifies risk based on guidelines.";;
  csv_path ← input "Enter the path to your CSV file: ";
  if negb (path_exists csv_path) then
    print ("Error: File '" +:+ csv_path +:+ "' not found.")
  else
    try_except (main_body csv_path) report_error.

Definition pdf_files : list string :=
  [ "2015_UGC_09-16-15.pdf"; "3560-1Chapter09.pdf"; "ContractTypes.pdf";
    "Contracts-for-Contractors.pdf"; "Guide-Construction-Contracts.pdf";
    "construction-contracting-options-4-pg.pdf" ].

(** The module run as a script: the statements at its top level, in order,
    for the environment [environ] left by [load_dotenv()]. *)
Definition script (environ : gmap string string) : M unit :=
  let OPENAI_API_KEY := environ !! "OPENAI_API_KEY" in
  match OPENAI_API_KEY with
  | None | Some EmptyString =>
      raise (ValueError "OPENAI_API_KEY environment variable is not set")
  | Some (String _ _) =>
      emit (KnowledgeSource pdf_files 1000 100);;
      main
  end.

End Program.

(** ** A deterministic stub of the collaborators

    The frame of the file [contracts.csv] has the column of the
    specification's scenario; the stub agent answers from the text alone
    and counts its requests. *)

Module Demo.

Definition clause_row (id : string) (clause notes : cell) : gmap string cell :=
  <["Id" := Text id]> (<["ClauseText" := clause]> (<["Notes" := notes]> ∅)).

Definition contracts : DataFrame :=
  {| columns := ["Id"; "ClauseText"; "Notes"];
     rows := [ clause_row "a" (Text "Payment due on delivery.") NaN;
               clause_row "b" (Text "") (Text "see annex");
               clause_row "c" (Text "Unlimited liability with no cap.") NaN ] |}.

Definition stub_reply (text : string) : string :=
  if Str.contains "Unlimited" text then "No."
  else if Str.contains "annex" text then "Unclear, cannot determine."
  else if Str.contains "Payment" text then "I believe this is acceptable - Yes."
  else " maybe ".

#[export] Instance backend : Backend := {|
  agent_st := nat;
  kickoff := λ n text _, (inr (stub_reply text), S n);
  path_exists := λ p, bool_decide (p = "contracts.csv");
  read_csv := λ p,
    if bool_decide (p = "contracts.csv") then inr contracts
    else inl (ExternalError "No such file or directory");
  to_csv := λ _ _, None
|}.

Definition world (lines : list string) : World := {| stdin := lines; agent := 0 |}.

End Demo.

(** ** Occurrence of a keyword in any letter case

    The reading of "contains the substring in any letter case" that the
    properties below use: some stretch of the reply equals the keyword up
    to the case of the letters A..Z. *)

Definition same_letter (a b : ascii) : bool :=
  let x := Str.code a in
  let y := Str.code b in
  ((x =? y) || (65 <=? x) && (x <=? 90) && (y =? x + 32)
   || (65 <=? y) && (y <=? 90) && (x =? y + 32))%N.

Inductive same_text_ci : string → string → Prop :=
| same_text_nil : same_text_ci "" ""
| same_text_cons a b s t :
    same_letter a b = true → same_text_ci s t → same_text_ci (String a s) (String b t).

Definition occurs_ci (keyword reply : string) : Prop :=
  ∃ before mid after, reply = before +:+ mid +:+ after ∧ same_text_ci mid keyword.

(** A keyword made of the letters a..z only. *)
Fixpoint lowercase_word (s : string) : bool :=
  match s with
  | EmptyString => true
  | String c s' => (97 <=? Str.code c)%N && (Str.code c <=? 122)%N && lowercase_word s'
  end.

Definition result_of {A W} (r : outcome A * list event * W) : outcome A := r.1.1.
Definition events_of {A W} (r : outcome A * list event * W) : list event := r.1.2.
Definition world_of {A W} (r : outcome A * list event * W) : W := r.2.

(** ** Notions used in the statements and in the proofs *)

Definition all_ascii : list ascii := map ascii_of_nat (seq 0 256).

Fixpoint nonspace (s : string) : bool :=
  match s with
  | EmptyString => true
  | String c s' => negb (Str.isspace c) && nonspace s'
  end.

(** The cells that the processor skips: [pd.isna(v) or v == ""]. *)
Definition is_skipped (v : cell) : bool :=
  match v with
  | NaN => true
  | Text s => Str.is_empty s
  end.

(** A cell that is missing or equal to the empty string. *)
Definition empty_cell (v : cell) : Prop := v = NaN ∨ v = Text "".

Definition label_cell (v : cell) : Prop := v = Text "Yes" ∨ v = Text "No".

(** One pass over column [col] takes a row to a row: an empty cell keeps
    the row as it is, any other cell is overwritten with a label. *)
Definition pass_row (col : string) (row row' : gmap string cell) : Prop :=
  match row !! col with
  | None => False
  | Some v =>
      if is_skipped v then row' = row
      else ∃ label, label_cell (Text label) ∧ row' = <[col := Text label]> row
  end.

(** The cell of column [col] in a row of the final frame, against the row
    of the frame read from the file. *)
Definition cell_outcome (col : string) (row row' : gmap string cell) : Prop :=
  match row !! col with
  | None => False
  | Some v =>
      if is_skipped v then row' !! col = Some v
      else ∃ v', row' !! col = Some v' ∧ label_cell v'
  end.

Definition untouched (col : string) (row row' : gmap string cell) : Prop :=
  row' !! col = row !! col.

(** The agent answers every request: no call of it raises. *)
Definition agent_replies `{Backend} : Prop :=
  ∀ a text column_name, ∃ reply a', kickoff a text column_name = (inr reply, a').

(** The lines that [print_columns] prints. *)
Fixpoint column_lines (i : nat) (cols : list string) : list event :=
  match cols with
  | [] => []
  | col :: rest => Print (pretty (i + 1) +:+ ". " +:+ col) :: column_lines (S i) rest
  end.

(** What [main] has printed, asked and read when the operator has typed
    the line of column numbers. *)
Definition listing_events (csv_path : string) (df : DataFrame) : list event :=
  [ Print "Contract Risk Classification System";
    Print "----------------------------------";
    Print "This system analyzes contract text and classifies risk based on guidelines.";
    Prompt "Enter the path to your CSV file: ";
    ReadCsv csv_path;
    Print (nl +:+ "Available columns:") ]
  ++ column_lines 0 (columns df)
  ++ [ Prompt (nl +:+ "Enter the numbers of text columns to analyze (comma-separated): ") ].

(** A 1-based column number that names a column. *)
Definition in_range (cols : list string) (n : Z) : Prop :=
  (1 ≤ n ≤ Z.of_nat (length cols))%Z.

#[global] Instance in_range_dec cols n : Decision (in_range cols n).
Proof. unfold in_range. apply _. Defined.

(** The token is the decimal literal of the number. *)
Definition parses_as (tok : string) (n : Z) : Prop := Py.int (Str.strip tok) = Some n.

Definition unparseable (tok : string) : Prop := Py.int (Str.strip tok) = None.

(** The [ValueError] that [int(tok)] raises when it raises one. *)
Definition int_failure (tok : string) : exn :=
  match Py.int_result_of tok with
  | Py.IntExceedsLimit digits => exceeds_limit digits
  | _ => invalid_literal tok
  end.

(** The texts that one pass over column [col] submits to the agent: the
    cells of the column that are neither missing nor empty, top to
    bottom. *)
Definition submitted (col : string) (frame_rows : list (gmap string cell)) : list string :=
  omap (λ row : gmap string cell,
          match row !! col with
          | Some (Text s) => if Str.is_empty s then None else Some s
          | _ => None
          end)
       frame_rows.

(** The classification requests among the events, in order. *)
Definition requests (evs : list event) : list (string * string) :=
  omap (λ ev, match ev with Kickoff text col => Some (text, col) | _ => None end) evs.

(** The events that the column processor can cause: it reads the file,
    builds the agent, prints and sends requests. *)
Definition processor_event (ev : event) : Prop :=
  match ev with
  | ReadCsv _ | AgentCreated | Print _ | Kickoff _ _ => True
  | PrintFrame _ | Prompt _ | KnowledgeSource _ _ _ | ToCsv _ _ => False
  end.

Definition analyzing_line (text_columns : list string) : string :=
  nl +:+ "Analyzing columns: " +:+ Str.join ", " text_columns.

Definition save_prompt : string :=
  nl +:+ "Enter a file path to save results (or press Enter to skip): ".

(** What [main] prints and asks between the return of the processor and
    the reading of the path to save to. *)
Definition completion_events (result_df : DataFrame) : list event :=
  [ Print (nl +:+ "Classification Complete!"); PrintFrame result_df; Prompt save_prompt ].

(** ** A stub whose agent and writer can fail

    The agent answers Yes, but fails on a text about unlimited liability;
    the writer refuses the path of a directory. *)

Module Faulty.

#[export] Instance backend : Backend := {|
  agent_st := nat;
  kickoff := λ n text _,
    if Str.contains "Unlimited" text then (inl (ExternalError "Connection error."), S n)
    else (inr "Yes", S n);
  path_exists := λ p, bool_decide (p = "contracts.csv");
  read_csv := λ p,
    if bool_decide (p = "contracts.csv") then inr Demo.contracts
    else inl (ExternalError "No such file or directory");
  to_csv := λ p _,
    if bool_decide (p = "/") then Some (ExternalError "Is a directory") else None
|}.

Definition world (lines : list string) : World := {| stdin := lines; agent := 0 |}.

End Faulty.

(** A row after processing the columns [cs], against the row before: it
    has the same column names, and the same cells outside [cs]. *)
Definition same_outside (cs : list string) (row row' : gmap string cell) : Prop :=
  dom row' = dom row ∧ ∀ col, col ∉ cs → row' !! col = row !! col.

(** The requests that a selection of columns calls for on a frame: for
    each selected column that the frame has, in the order of the
    selection, the non-empty cells of the column from top to bottom. *)
Fixpoint selection_requests (text_columns cols : list string)
    (frame_rows : list (gmap string cell)) : list (string * string) :=
  match text_columns with
  | [] => []
  | col :: rest =>
      (if bool_decide (col ∈ cols)
       then (λ text, (text, col)) <$> submitted col frame_rows
       else [])
      ++ selection_requests rest cols frame_rows
  end.

(** The progress lines of one pass over rows numbered from [idx]. *)
Fixpoint progress_lines (col : string) (total idx : nat)
    (pending : list (gmap string cell)) : list event :=
  match pending with
  | [] => []
  | _ :: rest => Print (row_progress idx total col) :: progress_lines col total (S idx) rest
  end.

(** ** A stub with a column that holds nothing

    The column Remarks of the file [blank.csv] has a missing cell and an
    empty text. *)

Module Blank.

Definition remarks : DataFrame :=
  {| columns := ["Id"; "Remarks"];
     rows := [ <["Id" := Text "a"]> (<["Remarks" := NaN]> ∅);
               <["Id" := Text "b"]> (<["Remarks" := Text ""]> ∅) ] |}.

#[export] Instance backend : Backend := {|
  agent_st := nat;
  kickoff := λ n text _, (inr "Yes", S n);
  path_exists := λ p, bool_decide (p = "blank.csv");
  read_csv := λ p,
    if bool_decide (p = "blank.csv") then inr remarks
    else inl (ExternalError "No such file or directory");
  to_csv := λ _ _, None
|}.

Definition world (lines : list string) : World := {| stdin := lines; agent := 0 |}.

End Blank.

(** A text made of the digits 0..9 only. *)
Fixpoint all_digits (s : string) : bool :=
  match s with
  | EmptyString => true
  | String c s' => Py.is_digit c && all_digits s'
  end.


(** The label of a reply, as a function. *)
Definition label_of (reply : string) : string :=
  if Str.contains "yes" (Str.lower (Str.strip reply)) then "Yes" else "No".

(** A row after one pass over [col], for an agent that answers
    [answer text col] to every request. *)
Definition classify_row (answer : string → string → string) (col : string)
    (row : gmap string cell) : gmap string cell :=
  match row !! col with
  | Some (Text s) =>
      if Str.is_empty s then row else <[col := Text (label_of (answer s col))]> row
  | _ => row
  end.

(** The rows after the passes over the selected columns that the frame
    has, one pass after the other. *)
Fixpoint classify_rows (answer : string → string → string) (text_columns cols : list string)
    (frame_rows : list (gmap string cell)) : list (gmap string cell) :=
  match text_columns with
  | [] => frame_rows
  | col :: rest =>
      classify_rows answer rest cols
        (if bool_decide (col ∈ cols) then classify_row answer col <$> frame_rows
         else frame_rows)
  end.

(** The agent answers every request by the reply [answer text col],
    whatever its state. *)
Definition agent_answers `{Backend} (answer : string → string → string) : Prop :=
  ∀ a text column_name, ∃ a', kickoff a text column_name = (inr (answer text column_name), a').

(** The events that are progress lines of the row loop. *)
Definition is_progress (ev : event) : bool :=
  match ev with
  | Print line => Str.startswith "  Analyzing row " line
  | _ => false
  end.

Definition progress_events (evs : list event) : list event :=
  omap (λ ev, if is_progress ev then Some ev else None) evs.

(** The progress lines that a selection calls for on the rows
    [frame_rows] of a frame with the columns [cols]. *)
Fixpoint selection_progress (text_columns cols : list string)
    (frame_rows : list (gmap string cell)) : list event :=
  match text_columns with
  | [] => []
  | col :: rest =>
      (if bool_decide (col ∈ cols)
       then progress_lines col (length frame_rows) 0 frame_rows
       else [])
      ++ selection_progress rest cols frame_rows
  end.

(** [c * n]: the character [c] written [n] times. *)
Fixpoint times (c : ascii) (n : nat) : string :=
  match n with
  | O => EmptyString
  | S n' => String c (times c n')
  end.

(** A token that, white space around it apart, writes the integer [n] in
    decimal digits, with or without a sign, whatever the number of its
    digits. *)
Definition integer_literal (tok : string) (n : Z) : Prop :=
  let '(negative, body) := Py.split_sign (Str.strip tok) in
  all_digits body = true ∧ Str.is_empty body = false
  ∧ ∃ digits, Py.scan_digits 0 0 false body
              = Some (if negative then (- n)%Z else n, digits, false, EmptyString).

(** The number that a text of digits writes after the digits of [acc]. *)
Fixpoint digits_value (acc : Z) (s : string) : Z :=
  match s with
  | EmptyString => acc
  | String c s' => digits_value (10 * acc + Py.digit_value c) s'
  end.

(** * Properties *)

(** ** Evaluations of the string functions *)

Example lower_example : Str.lower "No, this is NOT a YES case" = "no, this is not a yes case".
Proof. reflexivity. Qed.

Example strip_example : Str.strip (String "009" " Yes. " +:+ String "010" "") = "Yes.".
Proof. reflexivity. Qed.

Example split_example : Str.split "," "1, 3,,x" = ["1"; " 3"; ""; "x"].
Proof. reflexivity. Qed.

Example split_empty : Str.split "," "" = [""].
Proof. reflexivity. Qed.

Example join_example : Str.join ", " ["a"; "b"; "c"] = "a, b, c".
Proof. reflexivity. Qed.

Example contains_example : Str.contains "no" "cannot" = true.
Proof. reflexivity. Qed.

Example int_examples :
  Py.int "12" = Some 12%Z /\ Py.int " +007 " = Some 7%Z /\ Py.int "-3" = Some (-3)%Z
  /\ Py.int "1_0" = Some 10%Z /\ Py.int "" = None /\ Py.int "1__0" = None
  /\ Py.int "_1" = None /\ Py.int "1_" = None /\ Py.int "- 1" = None
  /\ Py.int "2.0" = None /\ Py.int "a" = None /\ Py.int "+" = None
  /\ Py.int "1 2" = None /\ Py.int "+_1" = None
  /\ Py.int (String "028" "1") = None /\ Py.int (String "160" "+1_0" +:+ String "133" "") = Some 10%Z.
Proof. repeat split; reflexivity. Qed.

Example repr_examples :
  Py.repr "" = "''" /\ Py.repr "x y" = "'x y'"
  /\ Py.repr (String "009" "a'b") = String "034" (String "092" "ta'b" +:+ String "034" "").
Proof. repeat split; reflexivity. Qed.

(** ** Strings *)

Lemma all_ascii_complete (c : ascii) : c ∈ all_ascii.
Proof.
  unfold all_ascii. rewrite <- (ascii_nat_embedding c).
  apply list_elem_of_In, in_map, in_seq.
  pose proof (nat_ascii_bounded c). lia.
Qed.

Lemma forall_ascii (P : ascii → bool) :
  forallb P all_ascii = true → ∀ c, P c = true.
Proof.
  intros HP c. rewrite forallb_forall in HP.
  apply HP, list_elem_of_In, all_ascii_complete.
Qed.

Lemma forall_ascii2 (P : ascii → ascii → bool) :
  forallb (λ a, forallb (P a) all_ascii) all_ascii = true → ∀ a b, P a b = true.
Proof.
  intros HP a. apply forall_ascii. revert a. by apply forall_ascii.
Qed.

(** On a letter a..z, equality after [str.lower] is equality up to case. *)
Lemma lower_char_same_letter (a b : ascii) :
  (97 <=? Str.code b)%N && (Str.code b <=? 122)%N = true →
  Ascii.eqb (Str.lower_char a) b = same_letter a b.
Proof.
  intros Hb.
  pose proof (forall_ascii2
    (λ a b, implb ((97 <=? Str.code b)%N && (Str.code b <=? 122)%N)
                  (Bool.eqb (Ascii.eqb (Str.lower_char a) b) (same_letter a b)))) as Hall.
  specialize (Hall ltac:(vm_compute; reflexivity) a b).
  cbv beta in Hall. rewrite Hb in Hall. simpl in Hall. by apply Bool.eqb_prop.
Qed.

(** A character equal to a letter up to case is no white space. *)
Lemma same_letter_not_space (a b : ascii) :
  (97 <=? Str.code b)%N && (Str.code b <=? 122)%N = true →
  same_letter a b = true → Str.isspace a = false.
Proof.
  intros Hb Hab.
  pose proof (forall_ascii2
    (λ a b, implb ((97 <=? Str.code b)%N && (Str.code b <=? 122)%N)
                  (implb (same_letter a b) (negb (Str.isspace a))))) as Hall.
  specialize (Hall ltac:(vm_compute; reflexivity) a b).
  cbv beta in Hall. rewrite Hb, Hab in Hall. simpl in Hall. by apply negb_true_iff.
Qed.

Lemma append_nil_r (s : string) : s +:+ "" = s.
Proof. induction s as [|c s IH]; simpl; [done|by rewrite IH]. Qed.

Lemma append_assoc (s t u : string) : (s +:+ t) +:+ u = s +:+ t +:+ u.
Proof. induction s as [|c s IH]; simpl; [done|by rewrite IH]. Qed.

Lemma lower_append (s t : string) : Str.lower (s +:+ t) = Str.lower s +:+ Str.lower t.
Proof. induction s as [|c s IH]; simpl; [done|by rewrite IH]. Qed.

Lemma startswith_append (p s : string) : Str.startswith p (p +:+ s) = true.
Proof. induction p; simpl; [done|]. by rewrite Ascii.eqb_refl. Qed.

Lemma startswith_split (p s : string) :
  Str.startswith p s = true ↔ ∃ rest, s = p +:+ rest.
Proof.
  split.
  - revert s. induction p as [|a p IH]; intros s Hs; simpl in *.
    + by exists s.
    + destruct s as [|b s]; [done|].
      destruct (Ascii.eqb_spec a b) as [->|]; [|done].
      destruct (IH _ Hs) as [rest ->]. by exists rest.
  - intros [rest ->]. apply startswith_append.
Qed.

Lemma startswith_contains (p s : string) :
  Str.startswith p s = true → Str.contains p s = true.
Proof. intros Hp. destruct s; simpl; by rewrite Hp. Qed.

Lemma contains_split (p s : string) :
  Str.contains p s = true ↔ ∃ before after, s = before +:+ p +:+ after.
Proof.
  split.
  - induction s as [|c s IH]; simpl; rewrite orb_true_iff.
    + intros [Hp|]; [|done].
      apply startswith_split in Hp as [rest ->]. by exists "", rest.
    + intros [Hp|Hs].
      * apply startswith_split in Hp as [rest ->]. by exists "", rest.
      * destruct (IH Hs) as (before & after & ->). by exists (String c before), after.
  - intros (before & after & ->).
    induction before as [|c before IH]; simpl.
    + apply startswith_contains, startswith_append.
    + by rewrite IH, orb_true_r.
Qed.

Lemma lower_split (s x y : string) :
  Str.lower s = x +:+ y → ∃ s1 s2, s = s1 +:+ s2 ∧ Str.lower s1 = x ∧ Str.lower s2 = y.
Proof.
  revert s. induction x as [|a x IH]; intros s Hs.
  - by exists "", s.
  - destruct s as [|c s]; simpl in Hs; [done|].
    injection Hs as Ha Hs.
    destruct (IH _ Hs) as (s1 & s2 & -> & <- & <-).
    exists (String c s1), s2. simpl. by rewrite Ha.
Qed.

Lemma same_text_lower (keyword mid : string) :
  lowercase_word keyword = true →
  same_text_ci mid keyword ↔ Str.lower mid = keyword.
Proof.
  revert mid. induction keyword as [|b keyword IH]; intros mid Hk.
  - split.
    + by inversion 1.
    + destruct mid; [constructor|done].
  - simpl in Hk. apply andb_true_iff in Hk as [Hb Hk]. split.
    + inversion 1 as [|a ? s ? Hab Hs]; subst. simpl.
      rewrite <- (lower_char_same_letter a b Hb) in Hab.
      apply Ascii.eqb_eq in Hab as ->. f_equal. by apply IH.
    + destruct mid as [|a mid]; simpl; [done|].
      intros [= Ha Hmid]. constructor.
      * rewrite <- (lower_char_same_letter a b Hb). by apply Ascii.eqb_eq.
      * by apply IH.
Qed.

(** Occurrence up to letter case is what the search in the lowered text
    decides. *)
Lemma occurs_ci_lower (keyword s : string) :
  lowercase_word keyword = true →
  occurs_ci keyword s ↔ Str.contains keyword (Str.lower s) = true.
Proof.
  intros Hk. rewrite contains_split. split.
  - intros (before & mid & after & -> & Hmid).
    apply (same_text_lower _ _ Hk) in Hmid.
    exists (Str.lower before), (Str.lower after).
    by rewrite !lower_append, Hmid.
  - intros (x & y & Hs).
    apply lower_split in Hs as (before & rest & -> & _ & Hrest).
    apply lower_split in Hrest as (mid & after & -> & Hmid & _).
    exists before, mid, after. split; [done|]. by apply same_text_lower.
Qed.

Lemma same_text_nonspace (keyword mid : string) :
  lowercase_word keyword = true → same_text_ci mid keyword → nonspace mid = true.
Proof.
  intros Hk Hmid. induction Hmid as [|a b s t Hab _ IH]; [done|].
  simpl in *. apply andb_true_iff in Hk as [Hb Hk].
  by rewrite (same_letter_not_space a b Hb Hab), IH.
Qed.

Lemma same_text_nonempty (keyword mid : string) :
  same_text_ci mid keyword → Str.is_empty keyword = false → Str.is_empty mid = false.
Proof. by destruct 1. Qed.

Lemma lstrip_suffix (s : string) : ∃ l, s = l +:+ Str.lstrip s.
Proof.
  induction s as [|c s [l IH]]; simpl.
  - by exists "".
  - destruct (Str.isspace c).
    + exists (String c l). simpl. by rewrite <- IH.
    + by exists "".
Qed.

Lemma rstrip_prefix (s : string) : ∃ r, s = Str.rstrip s +:+ r.
Proof.
  induction s as [|c s [r IH]]; simpl.
  - by exists "".
  - destruct (Str.isspace c && Str.is_empty (Str.rstrip s)).
    + by exists (String c s).
    + exists r. simpl. by rewrite <- IH.
Qed.

Lemma strip_inside (s : string) : ∃ l r, s = l +:+ Str.strip s +:+ r.
Proof.
  destruct (lstrip_suffix s) as [l Hl].
  destruct (rstrip_prefix (Str.lstrip s)) as [r Hr].
  exists l, r. unfold Str.strip. by rewrite <- Hr.
Qed.

Lemma lstrip_keeps (before mid after : string) :
  nonspace mid = true → Str.is_empty mid = false →
  ∃ before', Str.lstrip (before +:+ mid +:+ after) = before' +:+ mid +:+ after.
Proof.
  intros Hns Hne. induction before as [|c before [b' IH]]; simpl.
  - destruct mid as [|m mid]; [done|]. simpl in *.
    apply andb_true_iff in Hns as [Hm _]. apply negb_true_iff in Hm.
    rewrite Hm. by exists "".
  - destruct (Str.isspace c).
    + by exists b'.
    + by exists (String c before).
Qed.

Lemma rstrip_nonspace (mid after : string) :
  nonspace mid = true → Str.rstrip (mid +:+ after) = mid +:+ Str.rstrip after.
Proof.
  induction mid as [|m mid IH]; simpl; [done|].
  intros [Hm Hmid]%andb_true_iff. apply negb_true_iff in Hm.
  by rewrite Hm, IH.
Qed.

Lemma is_empty_append (s t : string) :
  Str.is_empty (s +:+ t) = Str.is_empty s && Str.is_empty t.
Proof. by destruct s. Qed.

Lemma rstrip_keeps_prefix (before t : string) :
  Str.is_empty (Str.rstrip t) = false →
  Str.rstrip (before +:+ t) = before +:+ Str.rstrip t.
Proof.
  intros Ht. induction before as [|c before IH]; simpl; [done|].
  by rewrite IH, is_empty_append, Ht, !andb_false_r.
Qed.

Lemma rstrip_keeps (before mid after : string) :
  nonspace mid = true → Str.is_empty mid = false →
  Str.rstrip (before +:+ mid +:+ after) = before +:+ mid +:+ Str.rstrip after.
Proof.
  intros Hns Hne.
  rewrite rstrip_keeps_prefix; rewrite (rstrip_nonspace _ _ Hns); [done|].
  by rewrite is_empty_append, Hne.
Qed.

(** Stripping the reply neither removes nor adds an occurrence of a
    keyword. *)
Lemma occurs_ci_strip (keyword s : string) :
  lowercase_word keyword = true → Str.is_empty keyword = false →
  occurs_ci keyword (Str.strip s) ↔ occurs_ci keyword s.
Proof.
  intros Hk Hne. split.
  - intros (before & mid & after & Hs & Hmid).
    destruct (strip_inside s) as (l & r & Hlr).
    exists (l +:+ before), mid, (after +:+ r). split; [|done].
    rewrite Hlr at 1. by rewrite Hs, !append_assoc.
  - intros (before & mid & after & -> & Hmid).
    pose proof (same_text_nonspace _ _ Hk Hmid) as Hns.
    pose proof (same_text_nonempty _ _ Hmid Hne) as Hmne.
    destruct (lstrip_keeps before mid after Hns Hmne) as [b' Hb'].
    unfold Str.strip. rewrite Hb', (rstrip_keeps _ _ _ Hns Hmne).
    by exists b', mid, (Str.rstrip after).
Qed.

(** The two tests of the normaliser, read on the reply itself. *)
Lemma keyword_test (keyword reply : string) :
  lowercase_word keyword = true → Str.is_empty keyword = false →
  Str.contains keyword (Str.lower (Str.strip reply)) = true ↔ occurs_ci keyword reply.
Proof.
  intros Hk Hne. by rewrite <- (occurs_ci_lower _ _ Hk), (occurs_ci_strip _ _ Hk Hne).
Qed.

Lemma keyword_test_false (keyword reply : string) :
  lowercase_word keyword = true → Str.is_empty keyword = false →
  Str.contains keyword (Str.lower (Str.strip reply)) = false ↔ ¬ occurs_ci keyword reply.
Proof.
  intros Hk Hne. rewrite <- (keyword_test _ _ Hk Hne). by destruct (Str.contains _ _).
Qed.

(** ** The label normaliser *)

(** What the normaliser does, by the two tests on the reply. *)
Lemma normalize_reply_cases `{Backend} (reply : string) (w : World) :
  run (normalize_reply reply) w =
    if Str.contains "yes" (Str.lower (Str.strip reply)) then (Returned "Yes", [], w)
    else if Str.contains "no" (Str.lower (Str.strip reply)) then (Returned "No", [], w)
    else (Returned "No", [Print (unclear_warning (Str.strip reply))], w).
Proof.
  unfold normalize_reply.
  destruct (Str.contains "yes" _); [done|].
  by destruct (Str.contains "no" _).
Qed.

Lemma unclear_warning_quotes (result_str : string) :
  Str.contains result_str (unclear_warning result_str) = true.
Proof.
  apply contains_split.
  by exists "Warning: Unclear result from agent: '", "'. Defaulting to 'No'".
Qed.

(** C1, as the code has it: for the reply "Unclear, cannot determine." the
    normaliser returns the label No and prints nothing, because the word
    "cannot" of the reply contains the keyword "no". *)
Theorem unclear_cannot_determine_is_no `{Backend} (w : World) :
  run (normalize_reply "Unclear, cannot determine.") w = (Returned "No", [], w).
Proof. by rewrite normalize_reply_cases. Qed.

(** C1, as stated, fails: no warning that quotes the reply is printed for
    the reply "Unclear, cannot determine.". *)
Lemma unclear_cannot_determine_warning_refuted :
  ¬ (let r := run (normalize_reply "Unclear, cannot determine.") (Demo.world []) in
     result_of r = Returned "No"
     ∧ ∃ line, Print line ∈ events_of r
               ∧ Str.contains "Unclear, cannot determine." line = true).
Proof.
  rewrite normalize_reply_cases. simpl.
  intros [_ (line & Hline & _)]. by apply elem_of_nil in Hline.
Qed.

(** C2: a reply in which "yes" occurs, in any letter case and at any
    place, is normalised to the label Yes, with nothing printed, whether
    or not "no" occurs in it as well. *)
Theorem yes_anywhere_is_yes `{Backend} (reply : string) (w : World) :
  occurs_ci "yes" reply →
  run (normalize_reply reply) w = (Returned "Yes", [], w).
Proof.
  intros Hyes. rewrite normalize_reply_cases.
  apply (keyword_test "yes") in Hyes; [|done..]. by rewrite Hyes.
Qed.

Lemma yes_anywhere_is_yes_witness :
  occurs_ci "yes" "No, this is not a YES case"
  ∧ occurs_ci "no" "No, this is not a YES case"
  ∧ run (normalize_reply "No, this is not a YES case") (Demo.world [])
    = (Returned "Yes", [], Demo.world []).
Proof.
  assert (occurs_ci "yes" "No, this is not a YES case") as Hyes.
  { exists "No, this is not a ", "YES", " case". split; [reflexivity|].
    repeat constructor. }
  split; [exact Hyes|]. split.
  - exists "", "No", ", this is not a YES case". split; [reflexivity|].
    repeat constructor.
  - exact (yes_anywhere_is_yes _ _ Hyes).
Defined.

(** C3: a reply in which "no" occurs and "yes" does not, in any letter
    case, is normalised to the label No. *)
Theorem no_without_yes_is_no `{Backend} (reply : string) (w : World) :
  occurs_ci "no" reply → ¬ occurs_ci "yes" reply →
  run (normalize_reply reply) w = (Returned "No", [], w).
Proof.
  intros Hno Hyes. rewrite normalize_reply_cases.
  apply (keyword_test "no") in Hno; [|done..].
  apply (keyword_test_false "yes") in Hyes; [|done..].
  by rewrite Hyes, Hno.
Qed.

Lemma no_without_yes_is_no_witness :
  occurs_ci "no" "It does NOT adhere." ∧ ¬ occurs_ci "yes" "It does NOT adhere."
  ∧ run (normalize_reply "It does NOT adhere.") (Demo.world [])
    = (Returned "No", [], Demo.world []).
Proof.
  assert (occurs_ci "no" "It does NOT adhere.") as Hno.
  { exists "It does ", "NO", "T adhere.". split; [reflexivity|]. repeat constructor. }
  assert (¬ occurs_ci "yes" "It does NOT adhere.") as Hyes.
  { apply (keyword_test_false "yes"); reflexivity. }
  split; [exact Hno|]. split; [exact Hyes|].
  exact (no_without_yes_is_no _ _ Hno Hyes).
Defined.

(** C4, as the code has it: a reply in which neither "yes" nor "no"
    occurs is normalised to the label No with one warning, which quotes the
    reply stripped of the white space around it; and a warning is printed
    in that case only. *)
Theorem neither_keyword_warns `{Backend} (reply : string) (w : World) :
  (¬ occurs_ci "yes" reply ∧ ¬ occurs_ci "no" reply →
   run (normalize_reply reply) w
   = (Returned "No", [Print (unclear_warning (Str.strip reply))], w)
   ∧ Str.contains (Str.strip reply) (unclear_warning (Str.strip reply)) = true)
  ∧ (events_of (run (normalize_reply reply) w) ≠ []
     ↔ ¬ occurs_ci "yes" reply ∧ ¬ occurs_ci "no" reply).
Proof.
  rewrite <- !(keyword_test_false _ reply) by done.
  rewrite normalize_reply_cases. split.
  - intros [-> ->]. split; [done|]. apply unclear_warning_quotes.
  - unfold events_of.
    destruct (Str.contains "yes" _), (Str.contains "no" _); simpl;
      intuition congruence.
Qed.

Lemma neither_keyword_warns_witness :
  run (normalize_reply " maybe ") (Demo.world [])
  = (Returned "No", [Print "Warning: Unclear result from agent: 'maybe'. Defaulting to 'No'"],
     Demo.world []).
Proof.
  refine (proj1 (proj1 (neither_keyword_warns " maybe " (Demo.world [])) _)).
  split; apply keyword_test_false; reflexivity.
Defined.

(** C4, as stated, fails: the warning for the reply " maybe " does not
    contain that reply, whose surrounding blanks were stripped. *)
Lemma warning_quotes_original_refuted :
  ¬ (∀ reply : string,
       ¬ occurs_ci "yes" reply ∧ ¬ occurs_ci "no" reply →
       ∃ line, run (normalize_reply reply) (Demo.world [])
               = (Returned "No", [Print line], Demo.world [])
               ∧ Str.contains reply line = true).
Proof.
  intros Hclaim. destruct (Hclaim " maybe ") as (line & Hrun & Hline).
  - split; apply keyword_test_false; reflexivity.
  - rewrite normalize_reply_cases in Hrun. simpl in Hrun.
    injection Hrun as <-. vm_compute in Hline. discriminate.
Qed.

(** ** Runs of the effect monad *)

Lemma run_bind `{Backend} {A B} (m : M A) (f : A → M B) (w : World) :
  run (m ≫= f) w =
    match run m w with
    | (Returned a, ev1, w1) =>
        match run (f a) w1 with
        | (r, ev2, w2) => (r, ev1 ++ ev2, w2)
        end
    | (Raised e, ev1, w1) => (Raised e, ev1, w1)
    end.
Proof. reflexivity. Qed.

(** A sequence returns only if both of its parts return. *)
Lemma run_bind_returned `{Backend} {A B} (m : M A) (f : A → M B) w b ev w' :
  run (m ≫= f) w = (Returned b, ev, w') →
  ∃ a ev1 w1 ev2,
    run m w = (Returned a, ev1, w1) ∧ run (f a) w1 = (Returned b, ev2, w')
    ∧ ev = ev1 ++ ev2.
Proof.
  rewrite run_bind. destruct (run m w) as [[[a|e] ev1] w1]; [|done].
  destruct (run (f a) w1) as [[r ev2] w2] eqn:Hf.
  intros [= -> <- ->]. by exists a, ev1, w1, ev2.
Qed.

Lemma run_print `{Backend} (line : string) (w : World) :
  run (print line) w = (Returned tt, [Print line], w).
Proof. reflexivity. Qed.

Lemma run_ret `{Backend} {A} (a : A) (w : World) :
  run (mret a) w = (Returned a, [], w).
Proof. reflexivity. Qed.

Lemma run_emit `{Backend} (e : event) (w : World) :
  run (emit e) w = (Returned tt, [e], w).
Proof. reflexivity. Qed.

Lemma run_crew_kickoff `{Backend} (text col : string) (w : World) :
  run (crew_kickoff text col) w =
    match kickoff (agent w) text col with
    | (inl e, a') => (Raised e, [Kickoff text col], {| stdin := stdin w; agent := a' |})
    | (inr reply, a') =>
        (Returned reply, [Kickoff text col], {| stdin := stdin w; agent := a' |})
    end.
Proof. reflexivity. Qed.

Lemma run_pd_read_csv `{Backend} (path : string) (w : World) :
  run (pd_read_csv path) w =
    match read_csv path with
    | inl e => (Raised e, [ReadCsv path], w)
    | inr df => (Returned df, [ReadCsv path], w)
    end.
Proof. reflexivity. Qed.

(** The label that [analyze_text] returns is one of the two labels. *)
Lemma normalize_reply_label `{Backend} (reply : string) w r ev w' :
  run (normalize_reply reply) w = (r, ev, w') →
  r = Returned "Yes" ∨ r = Returned "No".
Proof.
  rewrite normalize_reply_cases.
  destruct (Str.contains "yes" _); [|destruct (Str.contains "no" _)];
    intros [= <- _ _]; auto.
Qed.

Lemma analyze_text_label `{Backend} (text col : string) w label ev w' :
  run (analyze_text text col) w = (Returned label, ev, w') →
  label = "Yes" ∨ label = "No".
Proof.
  unfold analyze_text. intros (reply & ev1 & w1 & ev2 & _ & Hn & _)%run_bind_returned.
  apply normalize_reply_label in Hn as [[= ->]|[= ->]]; auto.
Qed.

(** ** The column processor *)

Lemma is_skipped_empty (v : cell) : is_skipped v = true ↔ empty_cell v.
Proof.
  unfold empty_cell. destruct v as [|[|c s]]; simpl; intuition congruence.
Qed.

Lemma iterrows_loop_rows `{Backend} (col : string) (pending : list (gmap string cell)) :
  ∀ (done_rows : list (gmap string cell)) (df : DataFrame) w df' ev w',
    rows df = done_rows ++ pending →
    run (iterrows_loop col (length done_rows) pending df) w = (Returned df', ev, w') →
    columns df' = columns df
    ∧ ∃ pending', rows df' = done_rows ++ pending' ∧ Forall2 (pass_row col) pending pending'.
Proof.
  induction pending as [|row rest IH]; intros done_rows df w df' ev w' Hrows Hrun.
  - simpl in Hrun. rewrite run_ret in Hrun. injection Hrun as <- _ _.
    split; [done|]. exists []. by split.
  - simpl in Hrun.
    apply run_bind_returned in Hrun as (_ & _ & w1 & ev2 & _ & Hrun & _).
    apply run_bind_returned in Hrun as (v & ev3 & w2 & ev4 & Hget & Hrun & _).
    unfold getitem in Hget. destruct (row !! col) as [v0|] eqn:Hcell; [|done].
    rewrite run_ret in Hget. injection Hget as -> _ _.
    assert (rows df = (done_rows ++ [row]) ++ rest) as Hrows'
      by by rewrite <- app_assoc.
    assert (S (length done_rows) = length (done_rows ++ [row])) as Hlen
      by (rewrite length_app; simpl; lia).
    assert (is_skipped v = true →
            run (iterrows_loop col (S (length done_rows)) rest df) w2 = (Returned df', ev4, w') →
            columns df' = columns df
            ∧ ∃ pending', rows df' = done_rows ++ pending'
                          ∧ Forall2 (pass_row col) (row :: rest) pending') as Hskip.
    { intros Hv Hrest. rewrite Hlen in Hrest.
      destruct (IH _ _ _ _ _ _ Hrows' Hrest) as (Hcols & pending' & Hdf' & Hall).
      split; [done|]. exists (row :: pending'). split.
      - by rewrite Hdf', <- app_assoc.
      - constructor; [|done]. unfold pass_row. by rewrite Hcell, Hv. }
    destruct v as [|s]; [by apply Hskip|].
    destruct (Str.is_empty s) eqn:Hs; [by apply Hskip|].
    apply run_bind_returned in Hrun as (label & ev5 & w3 & ev6 & Hlabel & Hrun & _).
    apply analyze_text_label in Hlabel.
    rewrite Hlen in Hrun.
    assert (rows (set_at df (length done_rows) col (Text label))
            = (done_rows ++ [<[col := Text label]> row]) ++ rest) as Hset.
    { simpl. rewrite Hrows, <- app_assoc. simpl.
      rewrite <- (Nat.add_0_r (length done_rows)). by rewrite alter_app_r. }
    rewrite length_app in Hrun. simpl in Hrun.
    replace (length done_rows + 1) with (length (done_rows ++ [<[col := Text label]> row])) in Hrun
      by (rewrite length_app; simpl; lia).
    destruct (IH _ _ _ _ _ _ Hset Hrun) as (Hcols & pending' & Hdf' & Hall).
    split; [done|]. exists (<[col := Text label]> row :: pending'). split.
    + by rewrite Hdf', <- app_assoc.
    + constructor; [|done]. unfold pass_row. rewrite Hcell. simpl. rewrite Hs.
      exists label. split; [|done]. unfold label_cell. destruct Hlabel as [->| ->]; auto.
Qed.

Lemma Forall2_compose {A B C} (R : A → B → Prop) (S : B → C → Prop) (T : A → C → Prop)
    (l1 : list A) (l2 : list B) (l3 : list C) :
  (∀ x y z, R x y → S y z → T x z) →
  Forall2 R l1 l2 → Forall2 S l2 l3 → Forall2 T l1 l3.
Proof.
  intros HT HR. revert l3. induction HR as [|x y l1 l2 Hxy _ IH]; intros l3 HS.
  - inversion HS. constructor.
  - inversion HS as [|? z ? l3' Hyz Hrest]; subst. constructor; eauto.
Qed.

Lemma pass_row_other (c col : string) (row row' : gmap string cell) :
  c ≠ col → pass_row c row row' → untouched col row row'.
Proof.
  unfold pass_row, untouched. intros Hne Hpass.
  destruct (row !! c) as [v|]; [|done].
  destruct (is_skipped v); [by subst|].
  destruct Hpass as (label & _ & ->). by rewrite lookup_insert_ne.
Qed.

Lemma label_not_skipped (v : cell) : label_cell v → is_skipped v = false.
Proof. by intros [-> | ->]. Qed.

Lemma pass_row_same (col : string) (row row' : gmap string cell) :
  pass_row col row row' → cell_outcome col row row'.
Proof.
  unfold pass_row, cell_outcome. destruct (row !! col) as [v|] eqn:Hv; [|done].
  destruct (is_skipped v); [by intros ->|].
  intros (label & Hlabel & ->). exists (Text label). by rewrite lookup_insert_eq.
Qed.

Lemma untouched_then_pass (col : string) (row row' row'' : gmap string cell) :
  untouched col row row' → pass_row col row' row'' → cell_outcome col row row''.
Proof.
  intros Hsame Hpass%pass_row_same. unfold untouched, cell_outcome in *.
  by rewrite <- Hsame.
Qed.

Lemma untouched_then_other (c col : string) (row row' row'' : gmap string cell) :
  c ≠ col → untouched col row row' → pass_row c row' row'' → untouched col row row''.
Proof.
  intros Hne Hsame Hpass%(pass_row_other c col); [|done].
  unfold untouched in *. congruence.
Qed.

(** Once a cell has its outcome, a later pass over any column keeps it:
    an empty cell is skipped again, a label is replaced by a label. *)
Lemma cell_outcome_then_pass (c col : string) (row row' row'' : gmap string cell) :
  cell_outcome col row row' → pass_row c row' row'' → cell_outcome col row row''.
Proof.
  intros Hout Hpass. destruct (decide (c = col)) as [->|Hne].
  - apply pass_row_same in Hpass. unfold cell_outcome in *.
    destruct (row !! col) as [v|]; [|done].
    destruct (is_skipped v) eqn:Hv.
    + by rewrite Hout, Hv in Hpass.
    + destruct Hout as (v' & Hv' & Hlabel).
      by rewrite Hv', (label_not_skipped _ Hlabel) in Hpass.
  - apply (pass_row_other c col) in Hpass; [|done].
    unfold cell_outcome, untouched in *. by rewrite Hpass.
Qed.

Lemma column_pass `{Backend} (col : string) (df : DataFrame) w df' ev w' :
  run (iterrows_loop col 0 (rows df) df) w = (Returned df', ev, w') →
  columns df' = columns df ∧ Forall2 (pass_row col) (rows df) (rows df').
Proof.
  intros Hrun.
  destruct (iterrows_loop_rows col (rows df) [] df w df' ev w' eq_refl Hrun)
    as (Hcols & pending' & -> & Hall).
  by split.
Qed.

(** What one step of the loop over the columns does, when it returns. *)
Lemma for_columns_step `{Backend} (col : string) (rest : list string) (df : DataFrame)
    w df' ev w' :
  run (for_columns (col :: rest) df) w = (Returned df', ev, w') →
  ∃ mid ev1 w1,
    run (for_columns rest mid) w1 = (Returned df', ev1, w') ∧ columns mid = columns df
    ∧ if bool_decide (col ∈ columns df)
      then Forall2 (pass_row col) (rows df) (rows mid)
      else mid = df.
Proof.
  simpl. destruct (bool_decide (col ∈ columns df)).
  - intros (_ & _ & w1 & ev1 & _ & Hrun & _)%run_bind_returned.
    apply run_bind_returned in Hrun as (mid & ev2 & w2 & ev3 & Hpass & Hrest & _).
    apply column_pass in Hpass as [Hcols Hrows]. by exists mid, ev3, w2.
  - intros (_ & _ & w1 & ev1 & _ & Hrun & _)%run_bind_returned.
    by exists df, ev1, w1.
Qed.

Lemma for_columns_keeps `{Backend} (col : string) (orig : list (gmap string cell))
    (cs : list string) :
  ∀ (df : DataFrame) w df' ev w',
    run (for_columns cs df) w = (Returned df', ev, w') →
    Forall2 (cell_outcome col) orig (rows df) →
    Forall2 (cell_outcome col) orig (rows df').
Proof.
  induction cs as [|c rest IH]; intros df w df' ev w' Hrun Hout.
  - simpl in Hrun. rewrite run_ret in Hrun. by injection Hrun as <- _ _.
  - apply for_columns_step in Hrun as (mid & ev1 & w1 & Hrest & _ & Hstep).
    apply (IH _ _ _ _ _ Hrest).
    destruct (bool_decide (c ∈ columns df)); [|by subst].
    eapply Forall2_compose; [|exact Hout|exact Hstep].
    intros x y z. apply cell_outcome_then_pass.
Qed.

Lemma for_columns_reaches `{Backend} (col : string) (orig : list (gmap string cell))
    (cs : list string) :
  ∀ (df : DataFrame) w df' ev w',
    col ∈ cs → col ∈ columns df →
    run (for_columns cs df) w = (Returned df', ev, w') →
    Forall2 (untouched col) orig (rows df) →
    Forall2 (cell_outcome col) orig (rows df').
Proof.
  induction cs as [|c rest IH]; intros df w df' ev w' Hin Hcol Hrun Hsame.
  - by apply elem_of_nil in Hin.
  - apply for_columns_step in Hrun as (mid & ev1 & w1 & Hrest & Hcols & Hstep).
    destruct (decide (c = col)) as [->|Hne].
    + rewrite bool_decide_eq_true_2 in Hstep by done.
      apply (for_columns_keeps _ _ _ _ _ _ _ _ Hrest).
      eapply Forall2_compose; [|exact Hsame|exact Hstep].
      intros x y z. apply untouched_then_pass.
    + apply elem_of_cons in Hin as [->|Hin]; [done|].
      apply (IH _ _ _ _ _ Hin) in Hrest; [done|by rewrite Hcols|].
      destruct (bool_decide (c ∈ columns df)); [|by subst].
      eapply Forall2_compose; [|exact Hsame|exact Hstep].
      intros x y z. by apply untouched_then_other.
Qed.

Lemma process_csv_file_returned `{Backend} (csv_path : string) (text_columns : list string)
    w df' ev w' :
  run (process_csv_file csv_path text_columns) w = (Returned df', ev, w') →
  ∃ df ev1, read_csv csv_path = inr df
    ∧ run (for_columns text_columns df) w = (Returned df', ev1, w')
    ∧ ev = ReadCsv csv_path :: AgentCreated :: ev1.
Proof.
  unfold process_csv_file, create_contract_risk_agent.
  intros (df & ev0 & w0 & ev2 & Hread & Hrun & ->)%run_bind_returned.
  unfold run, pd_read_csv in Hread.
  destruct (read_csv csv_path) as [e|df0]; [done|]. injection Hread as -> <- <-.
  apply run_bind_returned in Hrun as ([] & ev3 & w3 & ev4 & Hemit & Hrun & ->).
  injection Hemit as <- <-. by exists df, ev4.
Qed.

(** C5: when the column processor returns, in every selected column that
    the dataset has, each cell that was missing or the empty string holds
    the value it had, and each other cell holds the label Yes or the label
    No. *)
Theorem processed_cells `{Backend} (csv_path : string) (text_columns : list string)
    (df : DataFrame) (col : string) w df' ev w' :
  read_csv csv_path = inr df →
  col ∈ text_columns → col ∈ columns df →
  run (process_csv_file csv_path text_columns) w = (Returned df', ev, w') →
  length (rows df') = length (rows df)
  ∧ ∀ (i : nat) (row : gmap string cell) (v : cell),
      rows df !! i = Some row → row !! col = Some v →
      ∃ row', rows df' !! i = Some row'
        ∧ (empty_cell v → row' !! col = Some v)
        ∧ (¬ empty_cell v → row' !! col = Some (Text "Yes") ∨ row' !! col = Some (Text "No")).
Proof.
  intros Hread Hin Hcol (df0 & ev1 & Hread' & Hrun & _)%process_csv_file_returned.
  rewrite Hread in Hread'. injection Hread' as <-.
  assert (Forall2 (cell_outcome col) (rows df) (rows df')) as Hall.
  { apply (for_columns_reaches col (rows df) _ _ _ _ _ _ Hin Hcol Hrun).
    apply Forall_Forall2_diag, Forall_true. by intros row. }
  split; [symmetry; by eapply Forall2_length|].
  intros i row v Hrow Hv.
  destruct (Forall2_lookup_l _ _ _ _ _ Hall Hrow) as (row' & Hrow' & Hout).
  exists row'. split; [done|]. unfold cell_outcome in Hout. rewrite Hv in Hout.
  rewrite <- is_skipped_empty. destruct (is_skipped v).
  - split; [done|]. by intros [].
  - split; [done|]. intros _. destruct Hout as (v' & -> & [-> | ->]); auto.
Qed.

Lemma run_bind_intro `{Backend} {A B} (m : M A) (f : A → M B) w a ev1 w1 r ev2 w2 :
  run m w = (Returned a, ev1, w1) → run (f a) w1 = (r, ev2, w2) →
  run (m ≫= f) w = (r, ev1 ++ ev2, w2).
Proof. intros Hm Hf. by rewrite run_bind, Hm, Hf. Qed.

Lemma analyze_text_returns `{Backend} (text col : string) (w : World) :
  agent_replies → ∃ label ev w', run (analyze_text text col) w = (Returned label, ev, w').
Proof.
  intros Hagent. destruct (Hagent (agent w) text col) as (reply & a' & Hreply).
  unfold analyze_text. rewrite run_bind, run_crew_kickoff, Hreply.
  rewrite normalize_reply_cases.
  destruct (Str.contains "yes" _); [|destruct (Str.contains "no" _)]; eauto.
Qed.

Lemma iterrows_loop_returns `{Backend} (col : string) (pending : list (gmap string cell)) :
  agent_replies →
  (∀ row, row ∈ pending → is_Some (row !! col)) →
  ∀ idx df w, ∃ df' ev w', run (iterrows_loop col idx pending df) w = (Returned df', ev, w').
Proof.
  intros Hagent. induction pending as [|row rest IH]; intros Hcells idx df w.
  - by exists df, [], w.
  - destruct (Hcells row) as [v Hv]; [by left|].
    assert (∀ row0, row0 ∈ rest → is_Some (row0 !! col)) as Hrest
      by (intros row0 Hin; apply Hcells; by right).
    specialize (IH Hrest). simpl. rewrite run_bind, run_print, run_bind.
    unfold getitem. rewrite Hv, run_ret.
    destruct v as [|s].
    + destruct (IH (S idx) df w) as (df' & ev & w' & ->). eauto.
    + destruct (Str.is_empty s).
      * destruct (IH (S idx) df w) as (df' & ev & w' & ->). eauto.
      * destruct (analyze_text_returns s col w Hagent) as (label & ev1 & w1 & Hlabel).
        rewrite run_bind, Hlabel.
        destruct (IH (S idx) (set_at df idx col (Text label)) w1) as (df' & ev & w' & ->).
        eauto.
Qed.

Lemma pass_row_is_Some (c col : string) (row row' : gmap string cell) :
  pass_row c row row' → is_Some (row !! col) → is_Some (row' !! col).
Proof.
  unfold pass_row. destruct (row !! c) as [v|]; [|done].
  destruct (is_skipped v); [by intros ->|].
  intros (label & _ & ->) Hcol. rewrite lookup_insert. by case_decide.
Qed.

Lemma pass_rectangular (c : string) (df df' : DataFrame) :
  columns df' = columns df → Forall2 (pass_row c) (rows df) (rows df') →
  rectangular df → rectangular df'.
Proof.
  intros Hcols Hrows Hrect row' col Hrow' Hcol.
  apply list_elem_of_lookup in Hrow' as [i Hi].
  destruct (Forall2_lookup_r _ _ _ _ _ Hrows Hi) as (row & Hrow & Hpass).
  apply (pass_row_is_Some _ _ _ _ Hpass), Hrect.
  - apply list_elem_of_lookup. eauto.
  - by rewrite <- Hcols.
Qed.

Lemma for_columns_returns `{Backend} (text_columns : list string) :
  agent_replies →
  ∀ df w, rectangular df →
    ∃ df' ev w', run (for_columns text_columns df) w = (Returned df', ev, w').
Proof.
  intros Hagent. induction text_columns as [|col rest IH]; intros df w Hrect.
  - by exists df, [], w.
  - simpl. destruct (bool_decide (col ∈ columns df)) eqn:Hcol.
    + apply bool_decide_eq_true in Hcol.
      rewrite run_bind, run_print, run_bind.
      destruct (iterrows_loop_returns col (rows df) Hagent
                  (λ row Hrow, Hrect row col Hrow Hcol) 0 df w) as (mid & ev1 & w1 & Hpass).
      rewrite Hpass. apply column_pass in Hpass as [Hcols Hrows].
      destruct (IH mid w1 (pass_rectangular _ _ _ Hcols Hrows Hrect)) as (df' & ev & w' & ->).
      eauto.
    + rewrite run_bind, run_print.
      destruct (IH df w Hrect) as (df' & ev & w' & ->). eauto.
Qed.

(** The processor returns whenever the agent answers every request and
    the frame is rectangular. *)
Lemma process_csv_file_returns `{Backend} (csv_path : string) (text_columns : list string)
    (df : DataFrame) (w : World) :
  agent_replies → read_csv csv_path = inr df → rectangular df →
  ∃ df' ev w', run (process_csv_file csv_path text_columns) w = (Returned df', ev, w').
Proof.
  intros Hagent Hread Hrect. unfold process_csv_file, create_contract_risk_agent.
  rewrite run_bind, run_pd_read_csv, Hread, run_bind, run_emit.
  destruct (for_columns_returns text_columns Hagent df w Hrect) as (df' & ev & w' & ->).
  eauto.
Qed.

Lemma demo_agent_replies : @agent_replies Demo.backend.
Proof. intros n text col. by exists (Demo.stub_reply text), (S n). Qed.

Lemma demo_contracts_rectangular : rectangular Demo.contracts.
Proof.
  intros row col Hrow Hcol. simpl in *.
  repeat (apply elem_of_cons in Hrow as [->|Hrow]);
    [| | |by apply elem_of_nil in Hrow];
    repeat (apply elem_of_cons in Hcol as [->|Hcol]);
    try (by apply elem_of_nil in Hcol); vm_compute; by eexists.
Qed.

Lemma processed_cells_witness :
  let r := run (process_csv_file "contracts.csv" ["ClauseText"]) (Demo.world []) in
  ∃ df', r = (Returned df', events_of r, world_of r)
    ∧ (λ row : gmap string cell, row !! "ClauseText") <$> rows df'
      = [Some (Text "Yes"); Some (Text ""); Some (Text "No")]
    ∧ length (rows df') = length (rows Demo.contracts)
    ∧ ∀ (i : nat) (row : gmap string cell) (v : cell),
        rows Demo.contracts !! i = Some row → row !! "ClauseText" = Some v →
        ∃ row', rows df' !! i = Some row'
          ∧ (empty_cell v → row' !! "ClauseText" = Some v)
          ∧ (¬ empty_cell v →
             row' !! "ClauseText" = Some (Text "Yes") ∨ row' !! "ClauseText" = Some (Text "No")).
Proof.
  intros r.
  exists {| columns := ["Id"; "ClauseText"; "Notes"];
            rows := [ Demo.clause_row "a" (Text "Yes") NaN;
                      Demo.clause_row "b" (Text "") (Text "see annex");
                      Demo.clause_row "c" (Text "No") NaN ] |}.
  assert (r = (Returned {| columns := ["Id"; "ClauseText"; "Notes"];
                           rows := [ Demo.clause_row "a" (Text "Yes") NaN;
                                     Demo.clause_row "b" (Text "") (Text "see annex");
                                     Demo.clause_row "c" (Text "No") NaN ] |},
               events_of r, world_of r)) as Hrun by (vm_compute; reflexivity).
  assert (@read_csv Demo.backend "contracts.csv" = inr Demo.contracts) as Hread
    by (vm_compute; reflexivity).
  split; [exact Hrun|]. split; [vm_compute; reflexivity|].
  refine (processed_cells "contracts.csv" ["ClauseText"] Demo.contracts "ClauseText"
            _ _ _ _ Hread _ _ Hrun).
  - apply list_elem_of_here.
  - apply list_elem_of_further, list_elem_of_here.
Defined.

Lemma run_bind_assoc `{Backend} {A B C} (m : M A) (f : A → M B) (g : B → M C) (w : World) :
  run ((m ≫= f) ≫= g) w = run (m ≫= λ a, f a ≫= g) w.
Proof.
  rewrite !run_bind. destruct (run m w) as [[[a|e] ev1] w1]; [|done].
  rewrite run_bind. destruct (run (f a) w1) as [[[b|e] ev2] w2]; [|done].
  destruct (run (g b) w2) as [[r ev3] w3]. by rewrite app_assoc.
Qed.

Lemma for_columns_columns `{Backend} (cs : list string) :
  ∀ (df : DataFrame) w df' ev w',
    run (for_columns cs df) w = (Returned df', ev, w') → columns df' = columns df.
Proof.
  induction cs as [|c rest IH]; intros df w df' ev w' Hrun.
  - simpl in Hrun. rewrite run_ret in Hrun. by injection Hrun as <- _ _.
  - apply for_columns_step in Hrun as (mid & ev1 & w1 & Hrest & Hcols & _).
    rewrite <- Hcols. by eapply IH.
Qed.

(** The loop over a list of columns in two parts is the loop over the
    first part followed, from the frame it leaves, by the loop over the
    second. *)
Lemma for_columns_app `{Backend} (cs1 cs2 : list string) :
  ∀ (df : DataFrame) (w : World),
    run (for_columns (cs1 ++ cs2) df) w = run (for_columns cs1 df ≫= for_columns cs2) w.
Proof.
  induction cs1 as [|c rest IH]; intros df w.
  - simpl. rewrite run_bind, run_ret.
    by destruct (run (for_columns cs2 df) w) as [[r ev] w'].
  - simpl. destruct (bool_decide (c ∈ columns df)).
    + rewrite run_bind_assoc, !(run_bind (print _)), run_print.
      rewrite run_bind_assoc, !(run_bind (iterrows_loop _ _ _ _)).
      destruct (run (iterrows_loop c 0 (rows df) df) w) as [[[mid|e] ev1] w1]; [|done].
      by rewrite IH.
    + rewrite run_bind_assoc, !(run_bind (print _)), run_print. by rewrite IH.
Qed.

Lemma run_process_csv_file `{Backend} (csv_path : string) (text_columns : list string)
    (df : DataFrame) (w : World) :
  read_csv csv_path = inr df →
  run (process_csv_file csv_path text_columns) w =
    match run (for_columns text_columns df) w with
    | (r, ev, w') => (r, ReadCsv csv_path :: AgentCreated :: ev, w')
    end.
Proof.
  intros Hread. unfold process_csv_file, create_contract_risk_agent.
  rewrite run_bind, run_pd_read_csv, Hread, run_bind, run_emit.
  by destruct (run (for_columns text_columns df) w) as [[r ev] w'].
Qed.

(** C6: a selected column that the dataset does not have makes the
    processor print a warning that names it and go on: once the columns
    before it are done, the warning is printed and the columns after it
    are processed from the very frame that was reached, so that the
    outcome is the one of the selection without that column, with one more
    line printed. *)
Theorem absent_column_warned `{Backend} (csv_path : string) (before after : list string)
    (col : string) (df mid : DataFrame) w ev1 w1 r ev2 w2 :
  read_csv csv_path = inr df →
  col ∉ columns df →
  run (for_columns before df) w = (Returned mid, ev1, w1) →
  run (for_columns after mid) w1 = (r, ev2, w2) →
  run (process_csv_file csv_path (before ++ col :: after)) w
  = (r, ReadCsv csv_path :: AgentCreated
        :: ev1 ++ Print (column_missing_warning col) :: ev2, w2)
  ∧ run (process_csv_file csv_path (before ++ after)) w
    = (r, ReadCsv csv_path :: AgentCreated :: ev1 ++ ev2, w2)
  ∧ Str.contains col (column_missing_warning col) = true.
Proof.
  intros Hread Hcol Hbefore Hafter.
  pose proof (for_columns_columns _ _ _ _ _ _ Hbefore) as Hcols.
  rewrite !(run_process_csv_file _ _ _ _ Hread).
  rewrite !for_columns_app, !run_bind, Hbefore. repeat split.
  - simpl. rewrite bool_decide_eq_false_2 by by rewrite Hcols.
    by rewrite run_bind, run_print, Hafter.
  - by rewrite Hafter.
  - apply contains_split. by exists "Warning: Column '", "' not found in CSV file.".
Qed.

Lemma absent_column_warned_witness :
  let w := Demo.world [] in
  let r1 := run (for_columns ["ClauseText"] Demo.contracts) w in
  ∃ mid, r1 = (Returned mid, events_of r1, world_of r1)
    ∧ let r2 := run (for_columns ["Notes"] mid) (world_of r1) in
      run (process_csv_file "contracts.csv" (["ClauseText"] ++ "Penalty" :: ["Notes"])) w
      = (result_of r2,
         ReadCsv "contracts.csv" :: AgentCreated :: events_of r1
         ++ Print "Warning: Column 'Penalty' not found in CSV file." :: events_of r2,
         world_of r2)
      ∧ run (process_csv_file "contracts.csv" (["ClauseText"] ++ ["Notes"])) w
        = (result_of r2,
           ReadCsv "contracts.csv" :: AgentCreated :: events_of r1 ++ events_of r2,
           world_of r2).
Proof.
  intros w r1.
  exists {| columns := ["Id"; "ClauseText"; "Notes"];
            rows := [ Demo.clause_row "a" (Text "Yes") NaN;
                      Demo.clause_row "b" (Text "") (Text "see annex");
                      Demo.clause_row "c" (Text "No") NaN ] |}.
  assert (r1 = (Returned {| columns := ["Id"; "ClauseText"; "Notes"];
                            rows := [ Demo.clause_row "a" (Text "Yes") NaN;
                                      Demo.clause_row "b" (Text "") (Text "see annex");
                                      Demo.clause_row "c" (Text "No") NaN ] |},
                events_of r1, world_of r1)) as Hbefore by (vm_compute; reflexivity).
  split; [exact Hbefore|]. intros r2.
  assert (@read_csv Demo.backend "contracts.csv" = inr Demo.contracts) as Hread
    by (vm_compute; reflexivity).
  assert ("Penalty" ∉ columns Demo.contracts) as Hcol.
  { simpl. intros Hin. repeat (apply elem_of_cons in Hin as [[=]|Hin]).
    by apply elem_of_nil in Hin. }
  assert (r2 = (result_of r2, events_of r2, world_of r2)) as Hafter
    by by destruct r2 as [[? ?] ?].
  destruct (@absent_column_warned Demo.backend "contracts.csv" ["ClauseText"] ["Notes"]
              "Penalty" Demo.contracts _ w _ _ _ _ _ Hread Hcol Hbefore Hafter)
    as (Hwarn & Hplain & _).
  by split.
Defined.

(** ** The interactive driver *)

Lemma run_print_columns `{Backend} (cols : list string) :
  ∀ (i : nat) (w : World), run (print_columns i cols) w = (Returned tt, column_lines i cols, w).
Proof.
  induction cols as [|col rest IH]; intros i w; [done|].
  simpl. by rewrite run_bind, run_print, IH.
Qed.

Lemma run_input `{Backend} (prompt line : string) (rest : list string) (a : agent_st) :
  run (input prompt) {| stdin := line :: rest; agent := a |}
  = (Returned line, [Prompt prompt], {| stdin := rest; agent := a |}).
Proof. reflexivity. Qed.

Lemma run_try_bind `{Backend} {A B} (m : M A) (f : A → M B) (h : exn → M B) (w : World) :
  run (try_except (m ≫= f) h) w =
    match run m w with
    | (Returned a, ev1, w1) =>
        match run (try_except (f a) h) w1 with
        | (r, ev, w') => (r, ev1 ++ ev, w')
        end
    | (Raised e, ev1, w1) =>
        match run (h e) w1 with
        | (r, ev, w') => (r, ev1 ++ ev, w')
        end
    end.
Proof.
  unfold run, try_except, mbind, M_bind.
  destruct (m w) as [[[a|e] ev1] w1]; [|done].
  destruct (f a w1) as [[[b|e] ev2] w2]; [done|].
  destruct (h e w2) as [[r ev3] w3]. by rewrite app_assoc.
Qed.

Lemma run_parse_indices `{Backend} (tokens : list string) (numbers : list Z) (w : World) :
  Forall2 parses_as tokens numbers →
  run (parse_indices tokens) w = (Returned ((λ n, n - 1)%Z <$> numbers), [], w).
Proof.
  induction 1 as [|tok n tokens numbers Htok _ IH]; [done|].
  simpl. unfold parses_as, Py.int in Htok.
  destruct (Py.int_result_of (Str.strip tok)) as [n'| |digits]; [|done..].
  injection Htok as ->. by rewrite run_bind, IH.
Qed.

Lemma run_parse_indices_bad `{Backend} (tokens : list string) (w : World) :
  Exists unparseable tokens →
  ∃ tok, tok ∈ tokens ∧ unparseable tok
         ∧ run (parse_indices tokens) w = (Raised (int_failure (Str.strip tok)), [], w).
Proof.
  induction tokens as [|tok rest IH]; intros Hbad; [by inversion Hbad|].
  simpl. destruct (Py.int_result_of (Str.strip tok)) as [n| |digits] eqn:Htok.
  - destruct IH as (bad & Hin & Hbad' & Hrun).
    { inversion Hbad as [? ? Hhere|]; subst; [|done].
      unfold unparseable, Py.int in Hhere. by rewrite Htok in Hhere. }
    exists bad. split; [by right|]. split; [done|]. by rewrite run_bind, Hrun.
  - exists tok. split; [by left|]. unfold unparseable, Py.int, int_failure.
    by rewrite Htok.
  - exists tok. split; [by left|]. unfold unparseable, Py.int, int_failure.
    by rewrite Htok.
Qed.

(** The limit is the only way for [int] to raise its second error. *)
Lemma int_failure_forms (tok : string) :
  int_failure tok
  = ValueError ("invalid literal for int() with base 10: " +:+ Py.take 200 (Py.repr tok))
  ∨ ∃ digits, 4300 < digits
      ∧ int_failure tok
        = ValueError ("Exceeds the limit (4300 digits) for integer string conversion: value has "
                      +:+ pretty digits
                      +:+ " digits; use sys.set_int_max_str_digits() to increase the limit").
Proof.
  unfold int_failure.
  destruct (Py.int_result_of tok) as [n| |digits] eqn:Hres; [by left..|].
  right. exists digits. split; [|done].
  unfold Py.int_result_of in Hres.
  destruct (Py.split_sign _) as [negative body].
  destruct (Py.scan_digits 0 0 false body) as [[[[value d] under] rest]|]; [|done].
  destruct (Py.starts_with_underscore body || under); [done|].
  destruct (Py.max_str_digits <? d) eqn:Hlimit.
  - injection Hres as <-. by apply Nat.ltb_lt in Hlimit.
  - by destruct (d =? 0), (Py.all_space rest).
Qed.

(** The run of [main] up to the parsing of the operator's line. *)
Lemma main_run_listing `{Backend} (path line : string) (rest : list string) (a : agent_st)
    (df : DataFrame) :
  path_exists path = true → read_csv path = inr df →
  run main {| stdin := path :: line :: rest; agent := a |} =
    match run (try_except
                 (col_indices ← parse_indices (Str.split "," line);
                  classify_selection path (select_columns (columns df) col_indices))
                 report_error) {| stdin := rest; agent := a |} with
    | (r, ev, w') => (r, listing_events path df ++ ev, w')
    end.
Proof.
  intros Hexists Hread. unfold main.
  do 3 (rewrite run_bind, run_print; cbv beta iota).
  rewrite run_bind, run_input, Hexists. cbv beta iota. simpl negb. cbv iota.
  unfold main_body.
  rewrite run_try_bind, run_pd_read_csv, Hread. cbv beta iota.
  rewrite run_try_bind, run_print. cbv beta iota.
  rewrite run_try_bind, run_print_columns. cbv beta iota.
  rewrite run_try_bind, run_input. cbv beta iota.
  destruct (run (try_except _ _) _) as [[r ev] w']. cbv beta iota.
  unfold listing_events. by rewrite <- !app_assoc.
Qed.

Lemma select_columns_filter (cols : list string) (numbers : list Z) :
  Forall2 (λ n c, cols !! Z.to_nat (n - 1) = Some c)
          (filter (in_range cols) numbers)
          (select_columns cols ((λ n, n - 1)%Z <$> numbers)).
Proof.
  induction numbers as [|n numbers IH]; [constructor|].
  rewrite filter_cons. unfold select_columns in *. simpl.
  destruct (decide (in_range cols n)) as [Hn|Hn]; unfold in_range in Hn.
  - assert (((0 <=? n - 1) && (n - 1 <? Z.of_nat (length cols)))%Z = true) as ->
      by (apply andb_true_iff; split; [apply Z.leb_le|apply Z.ltb_lt]; lia).
    destruct (lookup_lt_is_Some_2 cols (Z.to_nat (n - 1))) as [c Hc]; [lia|].
    rewrite Hc. simpl. by constructor.
  - assert (((0 <=? n - 1) && (n - 1 <? Z.of_nat (length cols)))%Z = false) as ->.
    { apply andb_false_iff. rewrite Z.leb_gt, Z.ltb_ge. lia. }
    done.
Qed.

(** C7, as the code has it: for a line of comma-separated integers that
    [int] accepts (none has more than 4300 digits), the selected columns
    are those of the numbers in range, in order; the numbers out of range
    leave no trace, the run from there on being fixed by the selection
    alone; and when no number is in range the driver prints its message
    and returns, nothing having been classified or written. *)
Theorem out_of_range_dropped `{Backend} (path line : string) (rest : list string)
    (a : agent_st) (df : DataFrame) (numbers : list Z) :
  path_exists path = true → read_csv path = inr df →
  Forall2 parses_as (Str.split "," line) numbers →
  let selected := select_columns (columns df) ((λ n, n - 1)%Z <$> numbers) in
  let w := {| stdin := path :: line :: rest; agent := a |} in
  let w1 := {| stdin := rest; agent := a |} in
  Forall2 (λ n c, columns df !! Z.to_nat (n - 1) = Some c)
          (filter (in_range (columns df)) numbers) selected
  ∧ run main w
    = (match run (try_except (classify_selection path selected) report_error) w1 with
       | (r, ev, w') => (r, listing_events path df ++ ev, w')
       end)
  ∧ (Forall (λ n, ¬ in_range (columns df) n) numbers →
     run main w
     = (Returned tt, listing_events path df ++ [Print "No valid columns selected."], w1)).
Proof.
  intros Hexists Hread Hparse selected w w1.
  pose proof (select_columns_filter (columns df) numbers) as Hsel.
  assert (run main w
          = match run (try_except (classify_selection path selected) report_error) w1 with
            | (r, ev, w') => (r, listing_events path df ++ ev, w')
            end) as Hmain.
  { unfold w. rewrite (main_run_listing _ _ _ _ _ Hexists Hread).
    rewrite run_try_bind, (run_parse_indices _ _ _ Hparse). fold selected w1.
    by destruct (run (try_except _ _) w1) as [[r ev] w']. }
  split; [done|]. split; [done|].
  intros Hnone. rewrite Hmain.
  assert (selected = []) as ->; [|done].
  fold selected in Hsel.
  assert (filter (in_range (columns df)) numbers = []) as Hfilter.
  { clear -Hnone. induction Hnone as [|n numbers Hn _ IH]; [done|].
    by rewrite filter_cons_False. }
  rewrite Hfilter in Hsel. by inversion Hsel.
Qed.

Lemma out_of_range_dropped_witness :
  Forall2 parses_as (Str.split "," "0, 7,-1") [0; 7; -1]%Z
  ∧ Forall (λ n, ¬ in_range (columns Demo.contracts) n) [0; 7; -1]%Z
  ∧ run main (Demo.world ["contracts.csv"; "0, 7,-1"; "out.csv"])
    = (Returned tt,
       listing_events "contracts.csv" Demo.contracts ++ [Print "No valid columns selected."],
       Demo.world ["out.csv"]).
Proof.
  assert (Forall2 parses_as (Str.split "," "0, 7,-1") [0; 7; -1]%Z) as Hparse
    by (repeat constructor).
  assert (Forall (λ n, ¬ in_range (columns Demo.contracts) n) [0; 7; -1]%Z) as Hnone
    by (repeat constructor; unfold in_range; simpl; lia).
  split; [exact Hparse|]. split; [exact Hnone|].
  assert (@path_exists Demo.backend "contracts.csv" = true) as Hexists
    by (vm_compute; reflexivity).
  assert (@read_csv Demo.backend "contracts.csv" = inr Demo.contracts) as Hread
    by (vm_compute; reflexivity).
  exact (proj2 (proj2 (@out_of_range_dropped Demo.backend "contracts.csv" "0, 7,-1" ["out.csv"] 0
                         Demo.contracts [0; 7; -1]%Z Hexists Hread Hparse)) Hnone).
Defined.

(** C9: when [int] refuses a token of the operator's line (the empty
    line has one such token), nothing is filtered: [int] raises its
    [ValueError], either the invalid literal quoted up to 200 characters
    or the excess over 4300 digits, the handler of [main] prints the one
    error line, and the run ends with nothing read again, classified or
    written. *)
Theorem unparseable_token_reported `{Backend} (path line : string) (rest : list string)
    (a : agent_st) (df : DataFrame) :
  path_exists path = true → read_csv path = inr df →
  Exists unparseable (Str.split "," line) →
  ∃ tok, tok ∈ Str.split "," line ∧ unparseable tok
    ∧ (int_failure (Str.strip tok)
       = ValueError ("invalid literal for int() with base 10: "
                     +:+ Py.take 200 (Py.repr (Str.strip tok)))
       ∨ ∃ digits, 4300 < digits
           ∧ int_failure (Str.strip tok)
             = ValueError ("Exceeds the limit (4300 digits) for integer string conversion: value has "
                           +:+ pretty digits
                           +:+ " digits; use sys.set_int_max_str_digits() to increase the limit"))
    ∧ run (parse_indices (Str.split "," line)) {| stdin := rest; agent := a |}
      = (Raised (int_failure (Str.strip tok)), [], {| stdin := rest; agent := a |})
    ∧ run main {| stdin := path :: line :: rest; agent := a |}
      = (Returned tt,
         listing_events path df
         ++ [Print ("An error occurred: " +:+ exn_str (int_failure (Str.strip tok)))],
         {| stdin := rest; agent := a |}).
Proof.
  intros Hexists Hread Hbad.
  destruct (run_parse_indices_bad _ {| stdin := rest; agent := a |} Hbad)
    as (tok & Hin & Htok & Hrun).
  exists tok. split; [done|]. split; [done|].
  split; [apply int_failure_forms|]. split; [done|].
  rewrite (main_run_listing _ _ _ _ _ Hexists Hread), run_try_bind, Hrun.
  reflexivity.
Qed.

Lemma unparseable_token_reported_witness :
  Exists unparseable (Str.split "," "")
  ∧ run main (Demo.world ["contracts.csv"; ""; "out.csv"])
    = (Returned tt,
       listing_events "contracts.csv" Demo.contracts
       ++ [Print "An error occurred: invalid literal for int() with base 10: ''"],
       Demo.world ["out.csv"]).
Proof.
  assert (Exists unparseable (Str.split "," "")) as Hbad by (by left).
  split; [exact Hbad|].
  assert (@path_exists Demo.backend "contracts.csv" = true) as Hexists
    by (vm_compute; reflexivity).
  assert (@read_csv Demo.backend "contracts.csv" = inr Demo.contracts) as Hread
    by (vm_compute; reflexivity).
  destruct (@unparseable_token_reported Demo.backend "contracts.csv" "" ["out.csv"] 0 Demo.contracts
              Hexists Hread Hbad) as (tok & Hin & _ & _ & _ & Hrun).
  apply list_elem_of_singleton in Hin as ->. exact Hrun.
Defined.

(** A token of 300 letters is quoted up to the 200th character of its
    [repr]; a token of 4301 digits is refused for its length. *)
Example long_tokens_are_refused :
  run main (Demo.world ["contracts.csv"; times "x" 300; "out.csv"])
  = (Returned tt,
     listing_events "contracts.csv" Demo.contracts
     ++ [Print ("An error occurred: invalid literal for int() with base 10: '"
                +:+ times "x" 199)],
     Demo.world ["out.csv"])
  ∧ run main (Demo.world ["contracts.csv"; "2," +:+ times "1" 4301; "out.csv"])
    = (Returned tt,
       listing_events "contracts.csv" Demo.contracts
       ++ [Print "An error occurred: Exceeds the limit (4300 digits) for integer string conversion: value has 4301 digits; use sys.set_int_max_str_digits() to increase the limit"],
       Demo.world ["out.csv"]).
Proof. split; vm_compute; reflexivity. Qed.

Example mixed_line_is_refused :
  run main (Demo.world ["contracts.csv"; "2, x"; "out.csv"])
  = (Returned tt,
     listing_events "contracts.csv" Demo.contracts
     ++ [Print "An error occurred: invalid literal for int() with base 10: 'x'"],
     Demo.world ["out.csv"]).
Proof. vm_compute. reflexivity. Qed.

(** ** The start of the script *)

(** C8: when the variable OPENAI_API_KEY is absent from the environment,
    or is the empty string, the script raises its [ValueError] at once:
    no knowledge source, no agent, no prompt, no file and no request
    comes before it. *)
Theorem missing_api_key_is_fatal `{Backend} (environ : gmap string string) (w : World) :
  environ !! "OPENAI_API_KEY" = None ∨ environ !! "OPENAI_API_KEY" = Some "" →
  run (script environ) w
  = (Raised (ValueError "OPENAI_API_KEY environment variable is not set"), [], w).
Proof. unfold script. by intros [-> | ->]. Qed.

Lemma missing_api_key_is_fatal_witness :
  run (script (<["HOME" := "/root"]> ∅)) (Demo.world ["contracts.csv"])
  = (Raised (ValueError "OPENAI_API_KEY environment variable is not set"), [],
     Demo.world ["contracts.csv"])
  ∧ run (script (<["OPENAI_API_KEY" := ""]> ∅)) (Demo.world ["contracts.csv"])
    = (Raised (ValueError "OPENAI_API_KEY environment variable is not set"), [],
       Demo.world ["contracts.csv"]).
Proof.
  split.
  - apply (@missing_api_key_is_fatal Demo.backend). left. vm_compute. reflexivity.
  - apply (@missing_api_key_is_fatal Demo.backend). right. vm_compute. reflexivity.
Defined.

(** With a key, the script builds the knowledge source and enters [main]. *)
Lemma script_with_key `{Backend} (environ : gmap string string) (c : ascii) (key : string)
    (w : World) :
  environ !! "OPENAI_API_KEY" = Some (String c key) →
  run (script environ) w
  = match run main w with
    | (r, ev, w') => (r, KnowledgeSource pdf_files 1000 100 :: ev, w')
    end.
Proof.
  intros Hkey. unfold script. rewrite Hkey, run_bind, run_emit.
  by destruct (run main w) as [[r ev] w'].
Qed.

(** ** Columns selected more than once *)

Lemma submitted_cons (col : string) (row : gmap string cell)
    (rest : list (gmap string cell)) :
  submitted col (row :: rest) =
    match row !! col with
    | Some (Text s) => if Str.is_empty s then submitted col rest else s :: submitted col rest
    | _ => submitted col rest
    end.
Proof.
  unfold submitted. simpl. destruct (row !! col) as [[|s]|]; [done| |done].
  by destruct (Str.is_empty s).
Qed.

Lemma requests_app (evs1 evs2 : list event) :
  requests (evs1 ++ evs2) = requests evs1 ++ requests evs2.
Proof. apply omap_app. Qed.

Lemma analyze_text_requests `{Backend} (text col : string) w label ev w' :
  run (analyze_text text col) w = (Returned label, ev, w') →
  requests ev = [(text, col)].
Proof.
  unfold analyze_text.
  intros (reply & ev1 & w1 & ev2 & Hkick & Hnorm & ->)%run_bind_returned.
  rewrite run_crew_kickoff in Hkick.
  destruct (kickoff (agent w) text col) as [[e|reply'] a']; [done|].
  injection Hkick as _ <- _.
  rewrite normalize_reply_cases in Hnorm.
  destruct (Str.contains "yes" _); [|destruct (Str.contains "no" _)];
    by injection Hnorm as _ <- _.
Qed.

(** A pass that returns has submitted exactly the non-empty cells of the
    rows it was given. *)
Lemma pass_requests `{Backend} (col : string) (pending : list (gmap string cell)) :
  ∀ (idx : nat) (df : DataFrame) w df' ev w',
    run (iterrows_loop col idx pending df) w = (Returned df', ev, w') →
    requests ev = (λ text, (text, col)) <$> submitted col pending.
Proof.
  induction pending as [|row rest IH]; intros idx df w df' ev w' Hrun.
  - simpl in Hrun. rewrite run_ret in Hrun. by injection Hrun as _ <- _.
  - simpl in Hrun.
    apply run_bind_returned in Hrun as ([] & ev1 & w1 & ev2 & Hprint & Hrun & ->).
    rewrite run_print in Hprint. injection Hprint as <- <-.
    apply run_bind_returned in Hrun as (v & ev3 & w2 & ev4 & Hget & Hrun & ->).
    unfold getitem in Hget. destruct (row !! col) as [v0|] eqn:Hcell; [|done].
    rewrite run_ret in Hget. injection Hget as -> <- <-.
    rewrite submitted_cons, Hcell.
    destruct v as [|s]; [by apply IH in Hrun|].
    destruct (Str.is_empty s); [by apply IH in Hrun|].
    apply run_bind_returned in Hrun as (label & ev5 & w3 & ev6 & Hlabel & Hrun & ->).
    apply analyze_text_requests in Hlabel. apply IH in Hrun.
    simpl. by rewrite requests_app, Hlabel, Hrun.
Qed.


Lemma select_columns_in (cols : list string) (n : Z) (c : string) (numbers : list Z) :
  in_range cols n → cols !! Z.to_nat (n - 1) = Some c →
  select_columns cols ((λ n, n - 1)%Z <$> n :: numbers)
  = c :: select_columns cols ((λ n, n - 1)%Z <$> numbers).
Proof.
  unfold in_range, select_columns. intros Hn Hc. simpl.
  assert (((0 <=? n - 1) && (n - 1 <? Z.of_nat (length cols)))%Z = true) as ->
    by (apply andb_true_iff; split; [apply Z.leb_le|apply Z.ltb_lt]; lia).
  by rewrite Hc.
Qed.





(** * Further properties *)

(** ** The normaliser as a decision *)

(** The normaliser never raises and leaves the world as it is; its label
    is Yes exactly when "yes" occurs in the reply in some letter case, and
    No otherwise. *)
Theorem normalize_reply_decides `{Backend} (reply : string) (w : World) :
  ∃ label ev,
    run (normalize_reply reply) w = (Returned label, ev, w)
    ∧ (label = "Yes" ↔ occurs_ci "yes" reply)
    ∧ (label = "No" ↔ ¬ occurs_ci "yes" reply).
Proof.
  rewrite normalize_reply_cases.
  pose proof (keyword_test "yes" reply eq_refl eq_refl) as Hyes.
  pose proof (keyword_test_false "yes" reply eq_refl eq_refl) as Hnot.
  destruct (Str.contains "yes" _); [|destruct (Str.contains "no" _)];
    eexists _, _; (split; [reflexivity|]); intuition congruence.
Qed.

(** ** The driver: missing file, end of input, exceptions *)

(** When the path typed by the operator names no file, [main] prints the
    error line and returns: the file is not read, no agent is built and
    the lines still waiting on the console are not consumed. *)
Theorem missing_file_reported `{Backend} (path : string) (rest : list string) (a : agent_st) :
  path_exists path = false →
  run main {| stdin := path :: rest; agent := a |}
  = (Returned tt,
     [ Print "Contract Risk Classification System";
       Print "----------------------------------";
       Print "This system analyzes contract text and classifies risk based on guidelines.";
       Prompt "Enter the path to your CSV file: ";
       Print ("Error: File '" +:+ path +:+ "' not found.") ],
     {| stdin := rest; agent := a |}).
Proof.
  intros Hmissing. unfold main.
  do 3 (rewrite run_bind, run_print; cbv beta iota).
  by rewrite run_bind, run_input, Hmissing.
Qed.

Lemma missing_file_reported_witness :
  run main (Demo.world ["other.csv"; "1"])
  = (Returned tt,
     [ Print "Contract Risk Classification System";
       Print "----------------------------------";
       Print "This system analyzes contract text and classifies risk based on guidelines.";
       Prompt "Enter the path to your CSV file: ";
       Print "Error: File 'other.csv' not found." ],
     Demo.world ["1"]).
Proof.
  apply (@missing_file_reported Demo.backend "other.csv" ["1"] 0).
  vm_compute. reflexivity.
Defined.

Lemma try_except_report `{Backend} (body : M unit) (w : World) :
  run (try_except body report_error) w =
    match run body w with
    | (Returned _, ev, w') => (Returned tt, ev, w')
    | (Raised e, ev, w') =>
        (Returned tt, ev ++ [Print ("An error occurred: " +:+ exn_str e)], w')
    end.
Proof.
  unfold run, try_except. by destruct (body w) as [[[[]|e] ev] w'].
Qed.

(** ** The processor and the console *)

Lemma normalize_reply_world `{Backend} (reply : string) w r ev w' :
  run (normalize_reply reply) w = (r, ev, w') → w' = w.
Proof.
  rewrite normalize_reply_cases.
  destruct (Str.contains "yes" _); [|destruct (Str.contains "no" _)]; by intros [= _ _ <-].
Qed.

Lemma analyze_text_stdin `{Backend} (text col : string) w r ev w' :
  run (analyze_text text col) w = (r, ev, w') → stdin w' = stdin w.
Proof.
  unfold analyze_text. rewrite run_bind, run_crew_kickoff.
  destruct (kickoff (agent w) text col) as [[e|reply] a'].
  - by intros [= _ _ <-].
  - destruct (run (normalize_reply reply) _) as [[r' ev'] w''] eqn:Hnorm.
    apply normalize_reply_world in Hnorm as ->. by intros [= _ _ <-].
Qed.

Lemma iterrows_loop_stdin `{Backend} (col : string) (pending : list (gmap string cell)) :
  ∀ (idx : nat) (df : DataFrame) w r ev w',
    run (iterrows_loop col idx pending df) w = (r, ev, w') → stdin w' = stdin w.
Proof.
  induction pending as [|row rest IH]; intros idx df w r ev w'.
  - simpl. rewrite run_ret. by intros [= _ _ <-].
  - simpl. rewrite run_bind, run_print, run_bind. unfold getitem.
    destruct (row !! col) as [v|]; [|by intros [= _ _ <-]].
    rewrite run_ret.
    destruct v as [|s].
    + destruct (run (iterrows_loop _ _ _ _) w) as [[r' ev'] w''] eqn:Hrest.
      apply IH in Hrest. by intros [= _ _ <-].
    + destruct (Str.is_empty s).
      * destruct (run (iterrows_loop _ _ _ _) w) as [[r' ev'] w''] eqn:Hrest.
        apply IH in Hrest. by intros [= _ _ <-].
      * rewrite run_bind.
        destruct (run (analyze_text s col) w) as [[[label|e] ev1] w1] eqn:Hlabel;
          apply analyze_text_stdin in Hlabel.
        -- destruct (run (iterrows_loop _ _ _ _) w1) as [[r' ev'] w''] eqn:Hrest.
           apply IH in Hrest. intros [= _ _ <-]. congruence.
        -- intros [= _ _ <-]. congruence.
Qed.

Lemma for_columns_stdin `{Backend} (cs : list string) :
  ∀ (df : DataFrame) w r ev w',
    run (for_columns cs df) w = (r, ev, w') → stdin w' = stdin w.
Proof.
  induction cs as [|c rest IH]; intros df w r ev w'.
  - simpl. rewrite run_ret. by intros [= _ _ <-].
  - simpl. destruct (bool_decide (c ∈ columns df)).
    + rewrite run_bind, run_print, run_bind.
      destruct (run (iterrows_loop c 0 (rows df) df) w) as [[[mid|e] ev1] w1] eqn:Hpass;
        apply iterrows_loop_stdin in Hpass.
      * destruct (run (for_columns rest mid) w1) as [[r' ev'] w''] eqn:Hrest.
        apply IH in Hrest. intros [= _ _ <-]. congruence.
      * intros [= _ _ <-]. congruence.
    + rewrite run_bind, run_print.
      destruct (run (for_columns rest df) w) as [[r' ev'] w''] eqn:Hrest.
      apply IH in Hrest. by intros [= _ _ <-].
Qed.

Lemma process_csv_file_stdin `{Backend} (csv_path : string) (text_columns : list string)
    w r ev w' :
  run (process_csv_file csv_path text_columns) w = (r, ev, w') →
  stdin w' = stdin w.
Proof.
  unfold process_csv_file, create_contract_risk_agent.
  rewrite run_bind, run_pd_read_csv.
  destruct (read_csv csv_path) as [e|df]; [by intros [= _ _ <-]|].
  rewrite run_bind, run_emit.
  destruct (run (for_columns text_columns df) w) as [[r' ev'] w''] eqn:Hloop.
  apply for_columns_stdin in Hloop. by intros [= _ _ <-].
Qed.

Lemma normalize_reply_events `{Backend} (reply : string) w r ev w' :
  run (normalize_reply reply) w = (r, ev, w') → Forall processor_event ev.
Proof.
  rewrite normalize_reply_cases.
  destruct (Str.contains "yes" _); [|destruct (Str.contains "no" _)];
    intros [= _ <- _]; repeat constructor.
Qed.

Lemma analyze_text_events `{Backend} (text col : string) w r ev w' :
  run (analyze_text text col) w = (r, ev, w') → Forall processor_event ev.
Proof.
  unfold analyze_text. rewrite run_bind, run_crew_kickoff.
  destruct (kickoff (agent w) text col) as [[e|reply] a'].
  - intros [= _ <- _]. repeat constructor.
  - destruct (run (normalize_reply reply) _) as [[r' ev'] w''] eqn:Hnorm.
    apply normalize_reply_events in Hnorm. intros [= _ <- _].
    by constructor.
Qed.

Lemma iterrows_loop_events `{Backend} (col : string) (pending : list (gmap string cell)) :
  ∀ (idx : nat) (df : DataFrame) w r ev w',
    run (iterrows_loop col idx pending df) w = (r, ev, w') → Forall processor_event ev.
Proof.
  induction pending as [|row rest IH]; intros idx df w r ev w'.
  - simpl. rewrite run_ret. intros [= _ <- _]. constructor.
  - simpl. rewrite run_bind, run_print, run_bind. unfold getitem.
    destruct (row !! col) as [v|]; [|intros [= _ <- _]; repeat constructor].
    rewrite run_ret.
    destruct v as [|s].
    + destruct (run (iterrows_loop _ _ _ _) w) as [[r' ev'] w''] eqn:Hrest.
      apply IH in Hrest. intros [= _ <- _]. by constructor.
    + destruct (Str.is_empty s).
      * destruct (run (iterrows_loop _ _ _ _) w) as [[r' ev'] w''] eqn:Hrest.
        apply IH in Hrest. intros [= _ <- _]. by constructor.
      * rewrite run_bind.
        destruct (run (analyze_text s col) w) as [[[label|e] ev1] w1] eqn:Hlabel;
          apply analyze_text_events in Hlabel.
        -- destruct (run (iterrows_loop _ _ _ _) w1) as [[r' ev'] w''] eqn:Hrest.
           apply IH in Hrest. intros [= _ <- _].
           constructor; [done|]. simpl. by apply Forall_app.
        -- intros [= _ <- _]. by constructor.
Qed.

Lemma for_columns_events `{Backend} (cs : list string) :
  ∀ (df : DataFrame) w r ev w',
    run (for_columns cs df) w = (r, ev, w') → Forall processor_event ev.
Proof.
  induction cs as [|c rest IH]; intros df w r ev w'.
  - simpl. rewrite run_ret. intros [= _ <- _]. constructor.
  - simpl. destruct (bool_decide (c ∈ columns df)).
    + rewrite run_bind, run_print, run_bind.
      destruct (run (iterrows_loop c 0 (rows df) df) w) as [[[mid|e] ev1] w1] eqn:Hpass;
        apply iterrows_loop_events in Hpass.
      * destruct (run (for_columns rest mid) w1) as [[r' ev'] w''] eqn:Hrest.
        apply IH in Hrest. intros [= _ <- _].
        constructor; [done|]. simpl. by apply Forall_app.
      * intros [= _ <- _]. by constructor.
    + rewrite run_bind, run_print.
      destruct (run (for_columns rest df) w) as [[r' ev'] w''] eqn:Hrest.
      apply IH in Hrest. intros [= _ <- _]. by constructor.
Qed.

Lemma process_csv_file_events `{Backend} (csv_path : string) (text_columns : list string)
    w r ev w' :
  run (process_csv_file csv_path text_columns) w = (r, ev, w') →
  Forall processor_event ev.
Proof.
  unfold process_csv_file, create_contract_risk_agent.
  rewrite run_bind, run_pd_read_csv.
  destruct (read_csv csv_path) as [e|df]; [intros [= _ <- _]; repeat constructor|].
  rewrite run_bind, run_emit.
  destruct (run (for_columns text_columns df) w) as [[r' ev'] w''] eqn:Hloop.
  apply for_columns_events in Hloop. intros [= _ <- _]. by repeat constructor.
Qed.

(** The column processor keeps to itself: whether it returns or raises,
    it has read no line of the console, asked nothing, and written no
    file; all it does is read the CSV file, build the agent, print, and
    send requests. *)
Theorem processor_effects `{Backend} (csv_path : string) (text_columns : list string)
    w r ev w' :
  run (process_csv_file csv_path text_columns) w = (r, ev, w') →
  stdin w' = stdin w
  ∧ Forall processor_event ev
  ∧ (∀ path df, ToCsv path df ∉ ev) ∧ (∀ text, Prompt text ∉ ev).
Proof.
  intros Hrun. split; [by eapply process_csv_file_stdin|].
  pose proof (process_csv_file_events _ _ _ _ _ _ Hrun) as Hev.
  split; [done|]. rewrite Forall_forall in Hev.
  split; intros ? **; intros Hin; by apply Hev in Hin.
Qed.

Lemma processor_effects_witness :
  let r := run (process_csv_file "contracts.csv" ["ClauseText"; "Notes"])
               (Demo.world ["out.csv"]) in
  stdin (world_of r) = ["out.csv"] ∧ Forall processor_event (events_of r).
Proof.
  intros r.
  assert (r = (result_of r, events_of r, world_of r)) as Hrun by by destruct r as [[? ?] ?].
  destruct (@processor_effects Demo.backend _ _ _ _ _ _ Hrun) as (Hstdin & Hev & _).
  by split.
Defined.

(** ** The driver after the selection *)

Lemma run_df_to_csv `{Backend} (df : DataFrame) (path : string) (w : World) :
  run (df_to_csv df path) w =
    match to_csv path df with
    | Some e => (Raised e, [ToCsv path df], w)
    | None => (Returned tt, [ToCsv path df], w)
    end.
Proof. reflexivity. Qed.

(** The run of the [try] block from a selection that is not empty, by
    the outcome of the processor, the next line of the console and the
    outcome of the writer. *)
Lemma classify_selection_run `{Backend} (path col : string) (cols : list string) (w : World) :
  run (classify_selection path (col :: cols)) w =
    match run (process_csv_file path (col :: cols)) w with
    | (Raised e, ev, w2) => (Raised e, Print (analyzing_line (col :: cols)) :: ev, w2)
    | (Returned result_df, ev, w2) =>
        match stdin w2 with
        | [] =>
            (Raised (EOFError "EOF when reading a line"),
             Print (analyzing_line (col :: cols)) :: ev ++ completion_events result_df, w2)
        | save_path :: rest =>
            let w3 := {| stdin := rest; agent := agent w2 |} in
            if Str.is_empty save_path then
              (Returned tt,
               Print (analyzing_line (col :: cols)) :: ev ++ completion_events result_df, w3)
            else
              match to_csv save_path result_df with
              | Some e =>
                  (Raised e,
                   Print (analyzing_line (col :: cols)) :: ev
                   ++ completion_events result_df ++ [ToCsv save_path result_df], w3)
              | None =>
                  (Returned tt,
                   Print (analyzing_line (col :: cols)) :: ev
                   ++ completion_events result_df
                   ++ [ToCsv save_path result_df; Print ("Results saved to " +:+ save_path)], w3)
              end
        end
    end.
Proof.
  unfold classify_selection. rewrite run_bind, run_print. cbv beta iota.
  rewrite run_bind.
  destruct (run (process_csv_file path (col :: cols)) w) as [[[result_df|e] ev] w2];
    [|done].
  rewrite run_bind, run_print. cbv beta iota.
  rewrite run_bind, run_emit. cbv beta iota.
  rewrite run_bind. unfold run at 1, input.
  destruct (stdin w2) as [|save_path rest]; [done|].
  destruct (Str.is_empty save_path); [done|].
  rewrite run_bind, run_df_to_csv.
  by destruct (to_csv save_path result_df).
Qed.

(** The run of [main] from a line of numbers that all parse. *)
Lemma main_run_selection `{Backend} (path line : string) (rest : list string) (a : agent_st)
    (df : DataFrame) (numbers : list Z) :
  path_exists path = true → read_csv path = inr df →
  Forall2 parses_as (Str.split "," line) numbers →
  run main {| stdin := path :: line :: rest; agent := a |} =
    match run (try_except
                 (classify_selection path
                    (select_columns (columns df) ((λ n, n - 1)%Z <$> numbers)))
                 report_error) {| stdin := rest; agent := a |} with
    | (r, ev, w') => (r, listing_events path df ++ ev, w')
    end.
Proof.
  intros Hexists Hread Hparse.
  rewrite (main_run_listing _ _ _ _ _ Hexists Hread).
  rewrite run_try_bind, (run_parse_indices _ _ _ Hparse).
  by destruct (run (try_except _ _) _) as [[r ev] w'].
Qed.

(** When the processor raises (the file cannot be read again, or the
    agent fails on some cell), [main] prints the error as its last line
    and returns: the labels obtained so far are lost, no path to save to
    is asked for, nothing is written and the console is left as it was. *)
Theorem processor_failure_reported `{Backend} (path line : string) (rest : list string)
    (a : agent_st) (df : DataFrame) (numbers : list Z) (col : string)
    (cols : list string) e ev w2 :
  path_exists path = true → read_csv path = inr df →
  Forall2 parses_as (Str.split "," line) numbers →
  select_columns (columns df) ((λ n, n - 1)%Z <$> numbers) = col :: cols →
  run (process_csv_file path (col :: cols)) {| stdin := rest; agent := a |}
  = (Raised e, ev, w2) →
  run main {| stdin := path :: line :: rest; agent := a |}
  = (Returned tt,
     listing_events path df
     ++ Print (analyzing_line (col :: cols)) :: ev
     ++ [Print ("An error occurred: " +:+ exn_str e)],
     w2)
  ∧ stdin w2 = rest
  ∧ (∀ p d, ToCsv p d ∉ ev) ∧ (∀ d, PrintFrame d ∉ ev).
Proof.
  intros Hexists Hread Hparse Hsel Hfail.
  rewrite (main_run_selection _ _ _ _ _ _ Hexists Hread Hparse), Hsel.
  rewrite try_except_report, classify_selection_run, Hfail.
  split; [done|]. split; [by apply process_csv_file_stdin in Hfail|].
  pose proof (process_csv_file_events _ _ _ _ _ _ Hfail) as Hev.
  rewrite Forall_forall in Hev.
  split; intros ? **; intros Hin; by apply Hev in Hin.
Qed.

(** When the processor returns, [main] prints the frame and asks for a
    path: on a non-empty path that the writer accepts, the frame written
    is the very frame the processor returned, and the run ends with the
    line that confirms the path; on the empty line nothing is written. *)
Theorem results_saved_on_request `{Backend} (path line save_path : string)
    (rest : list string) (a : agent_st) (df result_df : DataFrame) (numbers : list Z)
    (col : string) (cols : list string) ev w2 :
  path_exists path = true → read_csv path = inr df →
  Forall2 parses_as (Str.split "," line) numbers →
  select_columns (columns df) ((λ n, n - 1)%Z <$> numbers) = col :: cols →
  run (process_csv_file path (col :: cols)) {| stdin := save_path :: rest; agent := a |}
  = (Returned result_df, ev, w2) →
  run main {| stdin := path :: line :: save_path :: rest; agent := a |}
  = (if Str.is_empty save_path then
       (Returned tt,
        listing_events path df
        ++ Print (analyzing_line (col :: cols)) :: ev ++ completion_events result_df,
        {| stdin := rest; agent := agent w2 |})
     else
       match to_csv save_path result_df with
       | None =>
           (Returned tt,
            listing_events path df
            ++ Print (analyzing_line (col :: cols)) :: ev
            ++ completion_events result_df
            ++ [ToCsv save_path result_df; Print ("Results saved to " +:+ save_path)],
            {| stdin := rest; agent := agent w2 |})
       | Some e =>
           (Returned tt,
            listing_events path df
            ++ Print (analyzing_line (col :: cols)) :: ev
            ++ completion_events result_df
            ++ [ToCsv save_path result_df; Print ("An error occurred: " +:+ exn_str e)],
            {| stdin := rest; agent := agent w2 |})
       end).
Proof.
  intros Hexists Hread Hparse Hsel Hdone.
  rewrite (main_run_selection _ _ _ _ _ _ Hexists Hread Hparse), Hsel.
  rewrite try_except_report, classify_selection_run, Hdone.
  rewrite (process_csv_file_stdin _ _ _ _ _ _ Hdone). simpl stdin. cbv beta iota zeta.
  destruct (Str.is_empty save_path); [done|].
  destruct (to_csv save_path result_df); [|done].
  do 2 f_equal. rewrite <- app_comm_cons. f_equal.
  by rewrite <- !app_assoc.
Qed.

Lemma processor_failure_reported_witness :
  let r := run (process_csv_file "contracts.csv" ["ClauseText"]) (Faulty.world ["out.csv"]) in
  result_of r = Raised (ExternalError "Connection error.")
  ∧ run main (Faulty.world ["contracts.csv"; "2"; "out.csv"])
    = (Returned tt,
       listing_events "contracts.csv" Demo.contracts
       ++ Print (analyzing_line ["ClauseText"]) :: events_of r
       ++ [Print "An error occurred: Connection error."],
       world_of r)
  ∧ stdin (world_of r) = ["out.csv"].
Proof.
  intros r.
  assert (r = (Raised (ExternalError "Connection error."), events_of r, world_of r))
    as Hfail by (vm_compute; reflexivity).
  assert (@path_exists Faulty.backend "contracts.csv" = true) as Hexists
    by (vm_compute; reflexivity).
  assert (@read_csv Faulty.backend "contracts.csv" = inr Demo.contracts) as Hread
    by (vm_compute; reflexivity).
  assert (Forall2 parses_as (Str.split "," "2") [2%Z]) as Hparse by (repeat constructor).
  assert (select_columns (columns Demo.contracts) ((λ n, n - 1)%Z <$> [2%Z])
          = ["ClauseText"]) as Hsel by reflexivity.
  destruct (@processor_failure_reported Faulty.backend "contracts.csv" "2" ["out.csv"] 0
              Demo.contracts [2%Z] "ClauseText" [] _ _ _ Hexists Hread Hparse Hsel Hfail)
    as (Hmain & Hstdin & _).
  split; [by rewrite Hfail|]. by split.
Defined.

Lemma results_saved_on_request_witness :
  let r := run (process_csv_file "contracts.csv" ["ClauseText"]) (Demo.world ["out.csv"]) in
  ∃ result_df,
    result_of r = Returned result_df
    ∧ (λ row : gmap string cell, row !! "ClauseText") <$> rows result_df
      = [Some (Text "Yes"); Some (Text ""); Some (Text "No")]
    ∧ run main (Demo.world ["contracts.csv"; "2"; "out.csv"])
      = (Returned tt,
         listing_events "contracts.csv" Demo.contracts
         ++ Print (analyzing_line ["ClauseText"]) :: events_of r
         ++ completion_events result_df
         ++ [ToCsv "out.csv" result_df; Print "Results saved to out.csv"],
         {| stdin := []; agent := agent (world_of r) |}).
Proof.
  intros r.
  assert (∃ result_df, r = (Returned result_df, events_of r, world_of r)
                       ∧ (λ row : gmap string cell, row !! "ClauseText") <$> rows result_df
                         = [Some (Text "Yes"); Some (Text ""); Some (Text "No")])
    as (result_df & Hdone & Hcells).
  { eexists. split; vm_compute; reflexivity. }
  exists result_df. split; [by rewrite Hdone|]. split; [exact Hcells|].
  assert (@path_exists Demo.backend "contracts.csv" = true) as Hexists
    by (vm_compute; reflexivity).
  assert (@read_csv Demo.backend "contracts.csv" = inr Demo.contracts) as Hread
    by (vm_compute; reflexivity).
  assert (Forall2 parses_as (Str.split "," "2") [2%Z]) as Hparse by (repeat constructor).
  assert (select_columns (columns Demo.contracts) ((λ n, n - 1)%Z <$> [2%Z])
          = ["ClauseText"]) as Hsel by reflexivity.
  exact (@results_saved_on_request Demo.backend "contracts.csv" "2" "out.csv" [] 0
           Demo.contracts result_df [2%Z] "ClauseText" [] _ _
           Hexists Hread Hparse Hsel Hdone).
Defined.

(** ** What the processor leaves alone *)

Lemma same_outside_refl (cs : list string) (row : gmap string cell) :
  same_outside cs row row.
Proof. by split. Qed.

Lemma same_outside_trans (cs : list string) (row row' row'' : gmap string cell) :
  same_outside cs row row' → same_outside cs row' row'' → same_outside cs row row''.
Proof.
  intros [Hdom Hcells] [Hdom' Hcells']. split; [congruence|].
  intros col Hcol. by rewrite Hcells', Hcells.
Qed.

Lemma pass_row_same_outside (c : string) (cs : list string) (row row' : gmap string cell) :
  c ∈ cs → pass_row c row row' → same_outside cs row row'.
Proof.
  unfold pass_row. intros Hin Hpass.
  destruct (row !! c) as [v|] eqn:Hv; [|done].
  destruct (is_skipped v); [subst; apply same_outside_refl|].
  destruct Hpass as (label & _ & ->). split.
  - apply dom_insert_lookup_L. by exists v.
  - intros col Hcol. apply lookup_insert_ne. by intros ->.
Qed.

Lemma for_columns_same_outside `{Backend} (all : list string) (cs : list string) :
  ∀ (df : DataFrame) w df' ev w',
    cs ⊆ all →
    run (for_columns cs df) w = (Returned df', ev, w') →
    Forall2 (same_outside all) (rows df) (rows df').
Proof.
  induction cs as [|c rest IH]; intros df w df' ev w' Hsub Hrun.
  - simpl in Hrun. rewrite run_ret in Hrun. injection Hrun as <- _ _.
    apply Forall_Forall2_diag, Forall_true. intros row. apply same_outside_refl.
  - apply for_columns_step in Hrun as (mid & ev1 & w1 & Hrest & _ & Hstep).
    assert (rest ⊆ all) as Hsub' by (intros x Hx; apply Hsub; by right).
    apply (IH _ _ _ _ _ Hsub') in Hrest.
    destruct (bool_decide (c ∈ columns df)); [|by subst].
    eapply Forall2_compose; [|exact Hstep|exact Hrest].
    intros x y z Hxy Hyz. eapply same_outside_trans; [|exact Hyz].
    apply (pass_row_same_outside c); [apply Hsub; by left|done].
Qed.

(** The frame that the processor returns has the columns and the number
    of rows of the frame it read, each row has the column names it had,
    and every cell of a column that was not selected is the cell that was
    read. *)
Theorem unselected_columns_kept `{Backend} (csv_path : string) (text_columns : list string)
    (df : DataFrame) w df' ev w' :
  read_csv csv_path = inr df →
  run (process_csv_file csv_path text_columns) w = (Returned df', ev, w') →
  columns df' = columns df
  ∧ length (rows df') = length (rows df)
  ∧ ∀ (i : nat) (row : gmap string cell),
      rows df !! i = Some row →
      ∃ row', rows df' !! i = Some row' ∧ dom row' = dom row
              ∧ ∀ col, col ∉ text_columns → row' !! col = row !! col.
Proof.
  intros Hread (df0 & ev1 & Hread' & Hrun & _)%process_csv_file_returned.
  rewrite Hread in Hread'. injection Hread' as <-.
  pose proof (for_columns_same_outside text_columns text_columns df w df' ev1 w'
                ltac:(done) Hrun) as Hall.
  split; [by eapply for_columns_columns|].
  split; [symmetry; by eapply Forall2_length|].
  intros i row Hrow.
  destruct (Forall2_lookup_l _ _ _ _ _ Hall Hrow) as (row' & Hrow' & Hdom & Hcells).
  by exists row'.
Qed.

Lemma unselected_columns_kept_witness :
  let r := run (process_csv_file "contracts.csv" ["ClauseText"]) (Demo.world []) in
  ∃ df', result_of r = Returned df'
    ∧ columns df' = ["Id"; "ClauseText"; "Notes"]
    ∧ (λ row : gmap string cell, row !! "Notes") <$> rows df'
      = [Some NaN; Some (Text "see annex"); Some NaN]
    ∧ ∀ (i : nat) (row : gmap string cell),
        rows Demo.contracts !! i = Some row →
        ∃ row', rows df' !! i = Some row' ∧ dom row' = dom row
                ∧ ∀ col, col ∉ ["ClauseText"] → row' !! col = row !! col.
Proof.
  intros r.
  assert (∃ df', r = (Returned df', events_of r, world_of r)
                 ∧ (λ row : gmap string cell, row !! "Notes") <$> rows df'
                   = [Some NaN; Some (Text "see annex"); Some NaN])
    as (df' & Hrun & Hnotes).
  { eexists. split; vm_compute; reflexivity. }
  assert (@read_csv Demo.backend "contracts.csv" = inr Demo.contracts) as Hread
    by (vm_compute; reflexivity).
  destruct (@unselected_columns_kept Demo.backend _ _ _ _ _ _ _ Hread Hrun)
    as (Hcols & _ & Hrows).
  exists df'. split; [by rewrite Hrun|]. by repeat split.
Defined.

(** ** The requests of a run *)

Lemma untouched_submitted (col : string) (orig cur : list (gmap string cell)) :
  Forall2 (untouched col) orig cur → submitted col cur = submitted col orig.
Proof.
  induction 1 as [|row row' orig cur Hsame _ IH]; [done|].
  rewrite !submitted_cons, IH. unfold untouched in Hsame. by rewrite Hsame.
Qed.

Lemma for_columns_requests `{Backend} (orig : list (gmap string cell)) (cs : list string) :
  ∀ (df : DataFrame) w df' ev w',
    NoDup cs →
    (∀ col, col ∈ cs → Forall2 (untouched col) orig (rows df)) →
    run (for_columns cs df) w = (Returned df', ev, w') →
    requests ev = selection_requests cs (columns df) orig.
Proof.
  induction cs as [|c rest IH]; intros df w df' ev w' Hnodup Hsame Hrun.
  - simpl in Hrun. rewrite run_ret in Hrun. by injection Hrun as _ <- _.
  - apply NoDup_cons in Hnodup as [Hfresh Hnodup].
    simpl in Hrun. simpl. destruct (bool_decide (c ∈ columns df)).
    + apply run_bind_returned in Hrun as ([] & evp & wp & ev' & Hprint & Hrun & ->).
      rewrite run_print in Hprint. injection Hprint as <- <-.
      apply run_bind_returned in Hrun as (mid & ev1 & w1 & ev2 & Hpass & Hrest & ->).
      pose proof (pass_requests _ _ _ _ _ _ _ _ Hpass) as Hreq.
      apply column_pass in Hpass as [Hcols Hrows].
      apply (IH _ _ _ _ _ Hnodup) in Hrest.
      * simpl. rewrite requests_app, Hreq, Hrest, Hcols.
        by rewrite (untouched_submitted c orig (rows df)) by (apply Hsame; by left).
      * intros col Hcol.
        eapply Forall2_compose; [|apply Hsame; by right|exact Hrows].
        intros x y z. apply untouched_then_other. by intros ->.
    + apply run_bind_returned in Hrun as ([] & evp & wp & ev' & Hprint & Hrun & ->).
      rewrite run_print in Hprint. injection Hprint as <- <-.
      apply (IH _ _ _ _ _ Hnodup) in Hrun; [done|].
      intros col Hcol. apply Hsame. by right.
Qed.

(** For a selection without repetition, the requests of a run of the
    processor that returns are fixed by the file alone: one request for
    each non-empty cell of each selected column that exists, column after
    column in the order of the selection and top to bottom in a column,
    each with the text that was read and the name of its column; missing
    and empty cells and absent columns cause no request. *)
Theorem requests_of_selection `{Backend} (csv_path : string) (text_columns : list string)
    (df : DataFrame) w df' ev w' :
  read_csv csv_path = inr df → NoDup text_columns →
  run (process_csv_file csv_path text_columns) w = (Returned df', ev, w') →
  requests ev = selection_requests text_columns (columns df) (rows df).
Proof.
  intros Hread Hnodup (df0 & ev1 & Hread' & Hrun & ->)%process_csv_file_returned.
  rewrite Hread in Hread'. injection Hread' as <-.
  apply (for_columns_requests (rows df)) in Hrun; [done..|].
  intros col _. apply Forall_Forall2_diag, Forall_true. by intros row.
Qed.

Lemma requests_of_selection_witness :
  let r := run (process_csv_file "contracts.csv" ["Notes"; "Penalty"; "ClauseText"])
               (Demo.world []) in
  ∃ df', result_of r = Returned df'
    ∧ requests (events_of r)
      = [ ("see annex", "Notes"); ("Payment due on delivery.", "ClauseText");
          ("Unlimited liability with no cap.", "ClauseText") ].
Proof.
  intros r.
  assert (∃ df', r = (Returned df', events_of r, world_of r)) as [df' Hrun].
  { eexists. vm_compute. reflexivity. }
  exists df'. split; [by rewrite Hrun|].
  assert (@read_csv Demo.backend "contracts.csv" = inr Demo.contracts) as Hread
    by (vm_compute; reflexivity).
  assert (NoDup ["Notes"; "Penalty"; "ClauseText"]) as Hnodup.
  { apply (bool_decide_unpack (NoDup ["Notes"; "Penalty"; "ClauseText"])).
    vm_compute. exact I. }
  rewrite (@requests_of_selection Demo.backend _ _ _ _ _ _ _ Hread Hnodup Hrun).
  vm_compute. reflexivity.
Defined.

(** ** Columns with nothing to classify *)

Lemma iterrows_loop_empty `{Backend} (col : string) (pending : list (gmap string cell)) :
  ∀ (idx : nat) (df : DataFrame) (w : World),
    Forall (λ row, ∃ v, row !! col = Some v ∧ empty_cell v) pending →
    run (iterrows_loop col idx pending df) w
    = (Returned df, progress_lines col (length (rows df)) idx pending, w).
Proof.
  induction pending as [|row rest IH]; intros idx df w Hempty; [done|].
  apply Forall_cons in Hempty as [(v & Hv & Hskip) Hempty].
  apply is_skipped_empty in Hskip.
  simpl. rewrite run_bind, run_print, run_bind. unfold getitem. rewrite Hv, run_ret.
  destruct v as [|s]; simpl in Hskip; [|rewrite Hskip]; by rewrite IH.
Qed.

(** A selected column in which every cell is missing or the empty string
    (as in a dataset without rows) costs one progress line for each row
    and nothing else: the agent receives no request and keeps its state,
    and the frame returned is the frame read. *)
Theorem empty_column_costs_nothing `{Backend} (csv_path col : string) (df : DataFrame)
    (w : World) :
  read_csv csv_path = inr df → col ∈ columns df →
  Forall (λ row, ∃ v, row !! col = Some v ∧ empty_cell v) (rows df) →
  run (process_csv_file csv_path [col]) w
  = (Returned df,
     ReadCsv csv_path :: AgentCreated :: Print (column_banner col)
     :: progress_lines col (length (rows df)) 0 (rows df),
     w).
Proof.
  intros Hread Hcol Hempty.
  rewrite (run_process_csv_file _ _ _ _ Hread). simpl.
  rewrite bool_decide_eq_true_2 by done.
  rewrite run_bind, run_print, run_bind, (iterrows_loop_empty _ _ _ _ _ Hempty), run_ret.
  by rewrite app_nil_r.
Qed.

Lemma empty_column_costs_nothing_witness :
  run (process_csv_file "blank.csv" ["Remarks"]) (Blank.world [])
  = (Returned Blank.remarks,
     [ ReadCsv "blank.csv"; AgentCreated; Print (column_banner "Remarks");
       Print "  Analyzing row 1/2: Remarks"; Print "  Analyzing row 2/2: Remarks" ],
     Blank.world []).
Proof.
  apply (@empty_column_costs_nothing Blank.backend "blank.csv" "Remarks" Blank.remarks).
  - vm_compute. reflexivity.
  - apply list_elem_of_further, list_elem_of_here.
  - repeat constructor.
    + exists NaN. split; [vm_compute; reflexivity|by left].
    + exists (Text ""). split; [vm_compute; reflexivity|by right].
Defined.

(** ** The numbers of the listing *)

Lemma pretty_N_char_digit (d : N) :
  (d < 10)%N →
  Py.is_digit (pretty_N_char d) = true ∧ Py.digit_value (pretty_N_char d) = Z.of_N d.
Proof.
  intros Hd.
  assert (d = 0 ∨ d = 1 ∨ d = 2 ∨ d = 3 ∨ d = 4 ∨ d = 5 ∨ d = 6 ∨ d = 7 ∨ d = 8 ∨ d = 9)%N
    as Hcases by lia.
  repeat (destruct Hcases as [->|Hcases]); try subst d; by vm_compute.
Qed.

Lemma all_digits_pretty_go (x : N) :
  ∀ s : string, all_digits s = true → all_digits (pretty_N_go x s) = true.
Proof.
  induction (N.lt_wf_0 x) as [x _ IH]. intros s Hs.
  destruct (decide (0 < x)%N) as [Hpos|Hzero].
  - rewrite pretty_N_go_step by done. apply IH; [apply N.div_lt; lia|].
    simpl. rewrite Hs, andb_true_r.
    by apply pretty_N_char_digit, N.mod_lt.
  - by replace x with 0%N by lia.
Qed.

Lemma all_digits_pretty (n : nat) : all_digits (pretty n) = true.
Proof.
  unfold pretty, pretty_nat, pretty, pretty_N.
  case_decide; [done|]. by apply all_digits_pretty_go.
Qed.

Lemma digit_properties (c : ascii) :
  Py.is_digit c = true →
  Str.isspace c = false ∧ Ascii.eqb c "," = false
  ∧ Py.int_isspace c = false ∧ Ascii.eqb c "+" = false ∧ Ascii.eqb c "-" = false
  ∧ Ascii.eqb c "_" = false.
Proof.
  pose proof (forall_ascii
    (λ c, implb (Py.is_digit c)
            (negb (Str.isspace c) && negb (Ascii.eqb c ",")
             && negb (Py.int_isspace c) && negb (Ascii.eqb c "+")
             && negb (Ascii.eqb c "-") && negb (Ascii.eqb c "_")))) as Hall.
  specialize (Hall ltac:(vm_compute; reflexivity) c). cbv beta in Hall.
  intros Hc. rewrite Hc in Hall. simpl in Hall.
  repeat (apply andb_true_iff in Hall as [Hall ?]).
  repeat split; by apply negb_true_iff.
Qed.

Lemma all_digits_nonspace (s : string) : all_digits s = true → nonspace s = true.
Proof.
  induction s as [|c s IH]; [done|]. simpl.
  intros [Hc Hs]%andb_true_iff.
  destruct (digit_properties c Hc) as (-> & _). by rewrite IH.
Qed.

Lemma strip_nonspace (s : string) : nonspace s = true → Str.strip s = s.
Proof.
  intros Hs. unfold Str.strip.
  assert (Str.lstrip s = s) as ->.
  { destruct s as [|c s]; [done|]. simpl in *.
    apply andb_true_iff in Hs as [Hc _]. apply negb_true_iff in Hc. by rewrite Hc. }
  rewrite <- (append_nil_r s) at 1. by rewrite rstrip_nonspace, append_nil_r.
Qed.

Lemma split_all_digits (s : string) : all_digits s = true → Str.split "," s = [s].
Proof.
  induction s as [|c s IH]; [done|]. simpl.
  intros [Hc Hs]%andb_true_iff.
  destruct (digit_properties c Hc) as (_ & -> & _). by rewrite IH.
Qed.

Lemma all_digits_append (s t : string) :
  all_digits (s +:+ t) = all_digits s && all_digits t.
Proof.
  induction s as [|c s IH]; [done|]. simpl. by rewrite IH, andb_assoc.
Qed.

Lemma digits_value_append (acc : Z) (s t : string) :
  digits_value acc (s +:+ t) = digits_value (digits_value acc s) t.
Proof. revert acc. induction s as [|c s IH]; intros acc; [done|]. simpl. apply IH. Qed.

Lemma length_append (s t : string) :
  String.length (s +:+ t) = String.length s + String.length t.
Proof. induction s as [|c s IH]; [done|]. simpl. by rewrite IH. Qed.

(** The scan of a text of digits takes all of it. *)
Lemma scan_digits_all (t : string) :
  all_digits t = true →
  ∀ (acc : Z) (d : nat) (b : bool),
    Py.scan_digits acc d b t
    = Some (digits_value acc t, d + String.length t,
            if Str.is_empty t then b else false, EmptyString).
Proof.
  induction t as [|c t IH]; intros Ht acc d b; simpl.
  - by rewrite Nat.add_0_r.
  - simpl in Ht. apply andb_true_iff in Ht as [Hc Ht].
    rewrite Hc, (IH Ht).
    replace (S d + String.length t) with (d + S (String.length t)) by lia.
    by destruct t.
Qed.

(** What [pretty] writes in front of a text, for a number below
    [10 ^ k]: at most [k] digits, whose value is the number. *)
Lemma pretty_go_digits (k : nat) :
  ∀ (x : N) (s : string),
    (x < 10 ^ N.of_nat k)%N →
    ∃ t, pretty_N_go x s = t +:+ s ∧ all_digits t = true
         ∧ digits_value 0 t = Z.of_N x ∧ String.length t ≤ k
         ∧ ((0 < x)%N → Str.is_empty t = false).
Proof.
  induction k as [|k IH]; intros x s Hx.
  - assert (x = 0%N) as -> by (simpl in Hx; lia).
    exists "". repeat split; [simpl; lia|lia].
  - destruct (decide (0 < x)%N) as [Hpos|Hzero].
    + rewrite pretty_N_go_step by done.
      destruct (pretty_N_char_digit (x `mod` 10)) as [Hdigit Hvalue];
        [by apply N.mod_lt|].
      destruct (IH (x `div` 10)%N (String (pretty_N_char (x `mod` 10)) s))
        as (t & -> & Hall & Hval & Hlen & _).
      { apply N.Div0.div_lt_upper_bound.
        by rewrite <- N.pow_succ_r', <- Nat2N.inj_succ. }
      exists (t +:+ String (pretty_N_char (x `mod` 10)) "").
      split; [by rewrite append_assoc|].
      split; [by rewrite all_digits_append, Hall; simpl; rewrite Hdigit|].
      split.
      { rewrite digits_value_append, Hval. simpl. rewrite Hvalue.
        pose proof (N.div_mod x 10 ltac:(done)). lia. }
      split; [rewrite length_append; simpl; lia|].
      intros _. by destruct t.
    + assert (x = 0%N) as -> by lia.
      exists "". repeat split; [simpl; lia|lia].
Qed.

(** [int] reads back the decimal writing of a number of at most 4300
    digits. *)
Lemma int_pretty (n : nat) :
  (N.of_nat n < 10 ^ 4300)%N → Py.int (pretty n) = Some (Z.of_nat n).
Proof.
  intros Hn. unfold pretty, pretty_nat, pretty, pretty_N.
  case_decide as Hzero.
  - by replace n with 0 by lia.
  - destruct (pretty_go_digits 4300 (N.of_nat n) "" Hn) as (t & Ht & Hall & Hval & Hlen & Hne).
    rewrite append_nil_r in Ht. rewrite Ht.
    specialize (Hne ltac:(lia)).
    destruct t as [|c t]; [done|].
    pose proof Hall as Hall'. simpl in Hall'. apply andb_true_iff in Hall' as [Hc _].
    destruct (digit_properties c Hc) as (_ & _ & Hsp & Hplus & Hminus & Hunder).
    unfold Py.int, Py.int_result_of. simpl Py.skip_space. rewrite Hsp.
    unfold Py.split_sign. rewrite Hplus, Hminus.
    rewrite (scan_digits_all _ Hall). unfold Py.starts_with_underscore.
    rewrite Hunder. simpl orb. cbv iota.
    assert ((Py.max_str_digits <? 0 + String.length (String c t)) = false) as ->
      by (apply Nat.ltb_ge; unfold Py.max_str_digits; lia).
    assert ((0 + String.length (String c t) =? 0) = false) as ->
      by (apply Nat.eqb_neq; simpl; lia).
    simpl Py.all_space. cbv iota. rewrite Hval. f_equal. lia.
Qed.

Lemma column_lines_lookup (cols : list string) :
  ∀ (i j : nat) (col : string),
    cols !! j = Some col →
    Print (pretty (i + j + 1) +:+ ". " +:+ col) ∈ column_lines i cols.
Proof.
  induction cols as [|c cols IH]; intros i j col Hcol; [done|].
  destruct j as [|j]; simpl in *.
  - injection Hcol as ->. rewrite Nat.add_0_r. by left.
  - right. replace (i + S j + 1) with (S i + j + 1) by lia. by apply IH.
Qed.

(** The numbers of the listing are the numbers to type: in a frame of
    fewer than 10 ^ 4300 columns, the column shown as "k. name" in the
    listing is the one that the line "k" selects, so that [main] goes on
    with the selection made of that column alone. *)
Theorem listed_number_selects `{Backend} (path : string) (rest : list string)
    (a : agent_st) (df : DataFrame) (i : nat) (col : string) :
  path_exists path = true → read_csv path = inr df →
  (N.of_nat (length (columns df)) < 10 ^ 4300)%N →
  columns df !! i = Some col →
  Print (pretty (i + 1) +:+ ". " +:+ col) ∈ listing_events path df
  ∧ run main {| stdin := path :: pretty (i + 1) :: rest; agent := a |} =
      match run (try_except (classify_selection path [col]) report_error)
                {| stdin := rest; agent := a |} with
      | (r, ev, w') => (r, listing_events path df ++ ev, w')
      end.
Proof.
  intros Hexists Hread Hsize Hcol. split.
  - unfold listing_events. apply elem_of_app. right. apply elem_of_app. left.
    by apply (column_lines_lookup _ 0 i).
  - assert (Forall2 parses_as (Str.split "," (pretty (i + 1))) [Z.of_nat (i + 1)]) as Hparse.
    { rewrite split_all_digits by apply all_digits_pretty.
      repeat constructor. unfold parses_as.
      rewrite strip_nonspace by apply all_digits_nonspace, all_digits_pretty.
      apply int_pretty. apply lookup_lt_Some in Hcol.
      eapply N.le_lt_trans; [|exact Hsize]. lia. }
    rewrite (main_run_selection _ _ _ _ _ _ Hexists Hread Hparse).
    assert (in_range (columns df) (Z.of_nat (i + 1))) as Hrange.
    { apply lookup_lt_Some in Hcol. unfold in_range. lia. }
    assert (columns df !! Z.to_nat (Z.of_nat (i + 1) - 1) = Some col) as Hcol'
      by (by replace (Z.to_nat (Z.of_nat (i + 1) - 1)) with i by lia).
    by rewrite (select_columns_in _ _ _ [] Hrange Hcol').
Qed.

Lemma listed_number_selects_witness :
  Print "2. ClauseText" ∈ listing_events "contracts.csv" Demo.contracts
  ∧ run main (Demo.world ["contracts.csv"; "2"; ""]) =
      match run (try_except (classify_selection "contracts.csv" ["ClauseText"]) report_error)
                (Demo.world [""]) with
      | (r, ev, w') => (r, listing_events "contracts.csv" Demo.contracts ++ ev, w')
      end.
Proof.
  assert (@path_exists Demo.backend "contracts.csv" = true) as Hexists
    by (vm_compute; reflexivity).
  assert (@read_csv Demo.backend "contracts.csv" = inr Demo.contracts) as Hread
    by (vm_compute; reflexivity).
  assert (N.of_nat (length (columns Demo.contracts)) < 10 ^ 4300)%N as Hsize
    by (vm_compute; reflexivity).
  exact (@listed_number_selects Demo.backend "contracts.csv" [""] 0 Demo.contracts 1
           "ClauseText" Hexists Hread Hsize eq_refl).
Defined.

(** ** Failures of the agent *)







(** ** The processor as a map over the frame *)

Lemma normalize_reply_label_of `{Backend} (reply : string) w r ev w' :
  run (normalize_reply reply) w = (r, ev, w') → r = Returned (label_of reply).
Proof.
  rewrite normalize_reply_cases. unfold label_of.
  destruct (Str.contains "yes" _); [|destruct (Str.contains "no" _)]; by intros [= <- _ _].
Qed.

Lemma analyze_text_answer `{Backend} (answer : string → string → string)
    (text col : string) w label ev w' :
  agent_answers answer →
  run (analyze_text text col) w = (Returned label, ev, w') →
  label = label_of (answer text col).
Proof.
  intros Hagent. unfold analyze_text.
  intros (reply & ev1 & w1 & ev2 & Hkick & Hnorm & _)%run_bind_returned.
  rewrite run_crew_kickoff in Hkick.
  destruct (Hagent (agent w) text col) as [a' Hreply]. rewrite Hreply in Hkick.
  injection Hkick as <- _ _.
  apply normalize_reply_label_of in Hnorm. by injection Hnorm as ->.
Qed.

Lemma iterrows_loop_map `{Backend} (answer : string → string → string) (col : string)
    (pending : list (gmap string cell)) :
  agent_answers answer →
  ∀ (done_rows : list (gmap string cell)) (df : DataFrame) w df' ev w',
    rows df = done_rows ++ pending →
    run (iterrows_loop col (length done_rows) pending df) w = (Returned df', ev, w') →
    rows df' = done_rows ++ (classify_row answer col <$> pending).
Proof.
  intros Hagent.
  induction pending as [|row rest IH]; intros done_rows df w df' ev w' Hrows Hrun.
  - simpl in Hrun. rewrite run_ret in Hrun. by injection Hrun as <- _ _.
  - simpl in Hrun.
    apply run_bind_returned in Hrun as (_ & _ & w1 & ev2 & _ & Hrun & _).
    apply run_bind_returned in Hrun as (v & ev3 & w2 & ev4 & Hget & Hrun & _).
    unfold getitem in Hget. destruct (row !! col) as [v0|] eqn:Hcell; [|done].
    rewrite run_ret in Hget. injection Hget as -> _ _.
    assert (rows df = (done_rows ++ [row]) ++ rest) as Hrows'
      by by rewrite <- app_assoc.
    assert (S (length done_rows) = length (done_rows ++ [row])) as Hlen
      by (rewrite length_app; simpl; lia).
    rewrite fmap_cons. unfold classify_row at 1. rewrite Hcell.
    destruct v as [|s].
    { rewrite Hlen in Hrun. rewrite (IH _ _ _ _ _ _ Hrows' Hrun). by rewrite <- app_assoc. }
    destruct (Str.is_empty s) eqn:Hs.
    { rewrite Hlen in Hrun. rewrite (IH _ _ _ _ _ _ Hrows' Hrun). by rewrite <- app_assoc. }
    apply run_bind_returned in Hrun as (label & ev5 & w3 & ev6 & Hlabel & Hrun & _).
    apply (analyze_text_answer answer) in Hlabel as ->; [|done].
    set (row' := <[col := Text (label_of (answer s col))]> row) in *.
    assert (rows (set_at df (length done_rows) col (Text (label_of (answer s col))))
            = (done_rows ++ [row']) ++ rest) as Hset.
    { simpl. rewrite Hrows, <- app_assoc. simpl.
      rewrite <- (Nat.add_0_r (length done_rows)). by rewrite alter_app_r. }
    replace (S (length done_rows)) with (length (done_rows ++ [row'])) in Hrun
      by (rewrite length_app; simpl; lia).
    rewrite (IH _ _ _ _ _ _ Hset Hrun). by rewrite <- app_assoc.
Qed.

Lemma for_columns_map `{Backend} (answer : string → string → string) (cs : list string) :
  agent_answers answer →
  ∀ (df : DataFrame) w df' ev w',
    run (for_columns cs df) w = (Returned df', ev, w') →
    columns df' = columns df
    ∧ rows df' = classify_rows answer cs (columns df) (rows df).
Proof.
  intros Hagent.
  induction cs as [|c rest IH]; intros df w df' ev w' Hrun.
  - simpl in Hrun. rewrite run_ret in Hrun. by injection Hrun as <- _ _.
  - simpl in Hrun. simpl. destruct (bool_decide (c ∈ columns df)).
    + apply run_bind_returned in Hrun as (_ & _ & w0 & ev0 & _ & Hrun & _).
      apply run_bind_returned in Hrun as (mid & ev1 & w1 & ev2 & Hpass & Hrest & _).
      pose proof (iterrows_loop_map answer c (rows df) Hagent [] df _ _ _ _ eq_refl Hpass)
        as Hmid.
      apply column_pass in Hpass as [Hcols _].
      apply IH in Hrest as [Hcols' Hrows']. simpl in Hmid.
      split; [congruence|]. by rewrite Hrows', Hcols, Hmid.
    + apply run_bind_returned in Hrun as (_ & _ & w0 & ev0 & _ & Hrun & _).
      by apply IH in Hrun.
Qed.

(** For an agent whose reply is a function of the text and the column
    name, the frame returned by the processor is a map over the frame
    read: pass after pass in the order of the selection, every non-empty
    cell of a selected column that exists is replaced by the label of the
    agent's reply to it, all at once; the row-by-row updates in place
    amount to this, and the processor always returns. *)
Theorem processor_is_a_map `{Backend} (answer : string → string → string)
    (csv_path : string) (text_columns : list string) (df : DataFrame) (w : World) :
  agent_answers answer → read_csv csv_path = inr df → rectangular df →
  ∃ ev w',
    run (process_csv_file csv_path text_columns) w
    = (Returned {| columns := columns df;
                   rows := classify_rows answer text_columns (columns df) (rows df) |},
       ev, w').
Proof.
  intros Hagent Hread Hrect.
  assert (agent_replies) as Hreplies.
  { intros a text col. destruct (Hagent a text col) as [a' Ha]. eauto. }
  destruct (process_csv_file_returns csv_path text_columns df w Hreplies Hread Hrect)
    as (df' & ev & w' & Hrun).
  exists ev, w'. rewrite Hrun.
  apply process_csv_file_returned in Hrun as (df0 & ev1 & Hread' & Hloop & _).
  rewrite Hread in Hread'. injection Hread' as <-.
  apply (for_columns_map answer) in Hloop as [Hcols Hrows]; [|done].
  destruct df' as [cols' rows']. simpl in *. by subst.
Qed.

Lemma processor_is_a_map_witness :
  ∃ ev w',
    run (process_csv_file "contracts.csv" ["ClauseText"; "Notes"]) (Demo.world [])
    = (Returned {| columns := ["Id"; "ClauseText"; "Notes"];
                   rows := [ Demo.clause_row "a" (Text "Yes") NaN;
                             Demo.clause_row "b" (Text "") (Text "No");
                             Demo.clause_row "c" (Text "No") NaN ] |},
       ev, w').
Proof.
  assert (@agent_answers Demo.backend (λ text _, Demo.stub_reply text)) as Hagent.
  { intros n text col. by exists (S n). }
  assert (@read_csv Demo.backend "contracts.csv" = inr Demo.contracts) as Hread
    by (vm_compute; reflexivity).
  destruct (@processor_is_a_map Demo.backend _ "contracts.csv" ["ClauseText"; "Notes"]
              Demo.contracts (Demo.world []) Hagent Hread demo_contracts_rectangular)
    as (ev & w' & Hrun).
  exists ev, w'. rewrite Hrun. vm_compute. reflexivity.
Defined.

(** ** The progress lines *)

Lemma progress_events_app (evs1 evs2 : list event) :
  progress_events (evs1 ++ evs2) = progress_events evs1 ++ progress_events evs2.
Proof. apply omap_app. Qed.

Lemma is_progress_row (idx total : nat) (col : string) :
  is_progress (Print (row_progress idx total col)) = true.
Proof. apply startswith_append. Qed.

Lemma progress_events_row (idx total : nat) (col : string) :
  progress_events [Print (row_progress idx total col)]
  = [Print (row_progress idx total col)].
Proof.
  unfold progress_events. cbn [omap list_omap].
  by rewrite is_progress_row.
Qed.

Lemma analyze_text_no_progress `{Backend} (text col : string) w r ev w' :
  run (analyze_text text col) w = (r, ev, w') → progress_events ev = [].
Proof.
  unfold analyze_text. rewrite run_bind, run_crew_kickoff.
  destruct (kickoff (agent w) text col) as [[e|reply] a'].
  - by intros [= _ <- _].
  - rewrite normalize_reply_cases.
    by destruct (Str.contains "yes" _); [|destruct (Str.contains "no" _)];
      intros [= _ <- _].
Qed.

Lemma progress_lines_length_irrel (col : string) (total : nat)
    (l1 l2 : list (gmap string cell)) :
  length l1 = length l2 →
  ∀ idx, progress_lines col total idx l1 = progress_lines col total idx l2.
Proof.
  revert l2. induction l1 as [|x l1 IH]; intros [|y l2] Hlen idx; try done.
  simpl. f_equal. apply IH. by injection Hlen.
Qed.

Lemma iterrows_loop_progress `{Backend} (col : string) (pending : list (gmap string cell)) :
  ∀ (idx : nat) (df : DataFrame) w df' ev w',
    run (iterrows_loop col idx pending df) w = (Returned df', ev, w') →
    progress_events ev = progress_lines col (length (rows df)) idx pending.
Proof.
  induction pending as [|row rest IH]; intros idx df w df' ev w' Hrun.
  - simpl in Hrun. rewrite run_ret in Hrun. by injection Hrun as _ <- _.
  - simpl in Hrun.
    apply run_bind_returned in Hrun as ([] & ev1 & w1 & ev2 & Hprint & Hrun & ->).
    rewrite run_print in Hprint. injection Hprint as <- <-.
    apply run_bind_returned in Hrun as (v & ev3 & w2 & ev4 & Hget & Hrun & ->).
    unfold getitem in Hget. destruct (row !! col) as [v0|]; [|done].
    rewrite run_ret in Hget. injection Hget as -> <- <-.
    rewrite !progress_events_app, progress_events_row.
    change (progress_events []) with (@nil event). simpl. f_equal.
    destruct v as [|s]; [by eapply IH|].
    destruct (Str.is_empty s); [by eapply IH|].
    apply run_bind_returned in Hrun as (label & ev5 & w3 & ev6 & Hlabel & Hrun & ->).
    apply analyze_text_no_progress in Hlabel. apply IH in Hrun.
    rewrite progress_events_app, Hlabel, Hrun. simpl. by rewrite length_alter.
Qed.

Lemma selection_progress_length_irrel (cs cols : list string)
    (l1 l2 : list (gmap string cell)) :
  length l1 = length l2 →
  selection_progress cs cols l1 = selection_progress cs cols l2.
Proof.
  intros Hlen. induction cs as [|c rest IH]; [done|]. simpl.
  by rewrite IH, Hlen, (progress_lines_length_irrel c (length l2) _ _ Hlen).
Qed.

Lemma for_columns_progress `{Backend} (cs : list string) :
  ∀ (df : DataFrame) w df' ev w',
    run (for_columns cs df) w = (Returned df', ev, w') →
    progress_events ev = selection_progress cs (columns df) (rows df).
Proof.
  induction cs as [|c rest IH]; intros df w df' ev w' Hrun.
  - simpl in Hrun. rewrite run_ret in Hrun. by injection Hrun as _ <- _.
  - simpl in Hrun. simpl. destruct (bool_decide (c ∈ columns df)).
    + apply run_bind_returned in Hrun as ([] & evp & wp & ev' & Hprint & Hrun & ->).
      rewrite run_print in Hprint. injection Hprint as <- <-.
      apply run_bind_returned in Hrun as (mid & ev1 & w1 & ev2 & Hpass & Hrest & ->).
      pose proof (iterrows_loop_progress _ _ _ _ _ _ _ _ Hpass) as Hlines.
      apply column_pass in Hpass as [Hcols Hrows].
      apply Forall2_length in Hrows.
      apply IH in Hrest. simpl.
      rewrite progress_events_app, Hlines, Hrest, Hcols. f_equal.
      by apply selection_progress_length_irrel.
    + apply run_bind_returned in Hrun as ([] & evp & wp & ev' & Hprint & Hrun & ->).
      rewrite run_print in Hprint. injection Hprint as <- <-.
      by apply IH in Hrun.
Qed.

(** Among the calls of [print] of a run of the processor that returns,
    those whose text begins with "  Analyzing row " are, in order: for
    every selected column that the frame has, one call for every row,
    skipped or not, numbered from 1 to the number of rows and followed by
    that number and the name of the column.  (The statement is about the
    texts passed to [print]; a text that holds a newline, as a warning
    that quotes a reply can, makes several lines on the console.) *)
Theorem progress_line_per_row `{Backend} (csv_path : string) (text_columns : list string)
    (df : DataFrame) w df' ev w' :
  read_csv csv_path = inr df →
  run (process_csv_file csv_path text_columns) w = (Returned df', ev, w') →
  progress_events ev = selection_progress text_columns (columns df) (rows df).
Proof.
  intros Hread (df0 & ev1 & Hread' & Hrun & ->)%process_csv_file_returned.
  rewrite Hread in Hread'. injection Hread' as <-.
  by apply for_columns_progress in Hrun.
Qed.

Lemma progress_line_per_row_witness :
  let r := run (process_csv_file "contracts.csv" ["Notes"; "Penalty"]) (Demo.world []) in
  ∃ df', result_of r = Returned df'
    ∧ progress_events (events_of r)
      = [ Print "  Analyzing row 1/3: Notes"; Print "  Analyzing row 2/3: Notes";
          Print "  Analyzing row 3/3: Notes" ].
Proof.
  intros r.
  assert (∃ df', r = (Returned df', events_of r, world_of r)) as [df' Hrun].
  { eexists. vm_compute. reflexivity. }
  exists df'. split; [by rewrite Hrun|].
  assert (@read_csv Demo.backend "contracts.csv" = inr Demo.contracts) as Hread
    by (vm_compute; reflexivity).
  rewrite (@progress_line_per_row Demo.backend _ _ _ _ _ _ _ Hread Hrun).
  vm_compute. reflexivity.
Defined.

(** ** The end of the input *)

(** The end of the input at each of the three prompts.  At the first,
    which is outside the [try] block, [EOFError] leaves [main].  At the
    second it is caught: the error line is printed and [main] returns
    with nothing classified.  At the third, after a run of the processor
    that returned, it is caught as well: the frame has been printed, the
    error line comes last and nothing is written. *)
Theorem end_of_input `{Backend} (path line : string) (a : agent_st) (df : DataFrame)
    (numbers : list Z) (col : string) (cols : list string) result_df ev w2 :
  path_exists path = true → read_csv path = inr df →
  Forall2 parses_as (Str.split "," line) numbers →
  select_columns (columns df) ((λ n, n - 1)%Z <$> numbers) = col :: cols →
  run (process_csv_file path (col :: cols)) {| stdin := []; agent := a |}
  = (Returned result_df, ev, w2) →
  run main {| stdin := []; agent := a |}
  = (Raised (EOFError "EOF when reading a line"),
     [ Print "Contract Risk Classification System";
       Print "----------------------------------";
       Print "This system analyzes contract text and classifies risk based on guidelines.";
       Prompt "Enter the path to your CSV file: " ],
     {| stdin := []; agent := a |})
  ∧ run main {| stdin := [path]; agent := a |}
    = (Returned tt,
       listing_events path df ++ [Print "An error occurred: EOF when reading a line"],
       {| stdin := []; agent := a |})
  ∧ run main {| stdin := [path; line]; agent := a |}
    = (Returned tt,
       listing_events path df
       ++ Print (analyzing_line (col :: cols)) :: ev
       ++ completion_events result_df
       ++ [Print "An error occurred: EOF when reading a line"],
       w2)
  ∧ (∀ p d, ToCsv p d ∉ ev) ∧ stdin w2 = [].
Proof.
  intros Hexists Hread Hparse Hsel Hdone. split; [reflexivity|]. split.
  - unfold main.
    do 3 (rewrite run_bind, run_print; cbv beta iota).
    rewrite run_bind, run_input, Hexists. cbv beta iota. simpl negb. cbv iota.
    unfold main_body.
    rewrite run_try_bind, run_pd_read_csv, Hread. cbv beta iota.
    rewrite run_try_bind, run_print. cbv beta iota.
    rewrite run_try_bind, run_print_columns. cbv beta iota.
    rewrite try_except_report, run_bind. unfold run at 1, input. simpl stdin. cbv iota.
    unfold listing_events. simpl. by rewrite <- !app_assoc.
  - pose proof (process_csv_file_stdin _ _ _ _ _ _ Hdone) as Hstdin. simpl in Hstdin.
    split.
    + rewrite (main_run_selection _ _ _ _ _ _ Hexists Hread Hparse), Hsel.
      rewrite try_except_report, classify_selection_run, Hdone, Hstdin.
      do 2 f_equal. rewrite <- app_comm_cons. f_equal. by rewrite <- !app_assoc.
    + split; [|done].
      pose proof (process_csv_file_events _ _ _ _ _ _ Hdone) as Hev.
      rewrite Forall_forall in Hev. intros p d Hin. by apply Hev in Hin.
Qed.

Lemma end_of_input_witness :
  let r := run (process_csv_file "contracts.csv" ["ClauseText"]) (Demo.world []) in
  ∃ result_df,
    result_of r = Returned result_df
    ∧ run main (Demo.world ["contracts.csv"])
      = (Returned tt,
         listing_events "contracts.csv" Demo.contracts
         ++ [Print "An error occurred: EOF when reading a line"],
         Demo.world [])
    ∧ run main (Demo.world ["contracts.csv"; "2"])
      = (Returned tt,
         listing_events "contracts.csv" Demo.contracts
         ++ Print (analyzing_line ["ClauseText"]) :: events_of r
         ++ completion_events result_df
         ++ [Print "An error occurred: EOF when reading a line"],
         world_of r).
Proof.
  intros r.
  assert (∃ result_df, r = (Returned result_df, events_of r, world_of r))
    as [result_df Hdone] by (eexists; vm_compute; reflexivity).
  exists result_df. split; [by rewrite Hdone|].
  assert (@path_exists Demo.backend "contracts.csv" = true) as Hexists
    by (vm_compute; reflexivity).
  assert (@read_csv Demo.backend "contracts.csv" = inr Demo.contracts) as Hread
    by (vm_compute; reflexivity).
  assert (Forall2 parses_as (Str.split "," "2") [2%Z]) as Hparse by (repeat constructor).
  assert (select_columns (columns Demo.contracts) ((λ n, n - 1)%Z <$> [2%Z])
          = ["ClauseText"]) as Hsel by reflexivity.
  destruct (@end_of_input Demo.backend "contracts.csv" "2" 0 Demo.contracts [2%Z]
              "ClauseText" [] result_df _ _ Hexists Hread Hparse Hsel Hdone)
    as (_ & Hsecond & Hthird & _).
  by split.
Defined.

(** ** Numbers too long for [int] *)

Lemma all_digits_times_one (n : nat) : all_digits (times "1" n) = true.
Proof. induction n as [|n IH]; [done|]. simpl. by rewrite IH. Qed.

(** C7, as stated, fails: the line made of the digit 1 written 4301 times
    is one integer, out of range for the three columns of the frame; the
    driver does not drop it and print "No valid columns selected.": [int]
    refuses a number of that length, and the error line is printed. *)
Lemma huge_number_not_dropped :
  ¬ (∀ (line : string) (numbers : list Z),
       Forall2 integer_literal (Str.split "," line) numbers →
       Forall (λ n, ¬ in_range (columns Demo.contracts) n) numbers →
       run main (Demo.world ["contracts.csv"; line; "out.csv"])
       = (Returned tt,
          listing_events "contracts.csv" Demo.contracts
          ++ [Print "No valid columns selected."],
          Demo.world ["out.csv"])).
Proof.
  intros Hclaim.
  specialize (Hclaim (times "1" 4301) [digits_value 0 (times "1" 4301)]).
  assert (run main (Demo.world ["contracts.csv"; times "1" 4301; "out.csv"])
          = (Returned tt,
             listing_events "contracts.csv" Demo.contracts
             ++ [Print "An error occurred: Exceeds the limit (4300 digits) for integer string conversion: value has 4301 digits; use sys.set_int_max_str_digits() to increase the limit"],
             Demo.world ["out.csv"])) as Hrun by (vm_compute; reflexivity).
  rewrite Hrun in Hclaim.
  assert (listing_events "contracts.csv" Demo.contracts
          ++ [Print "An error occurred: Exceeds the limit (4300 digits) for integer string conversion: value has 4301 digits; use sys.set_int_max_str_digits() to increase the limit"]
          ≠ listing_events "contracts.csv" Demo.contracts
            ++ [Print "No valid columns selected."]) as Hdiff.
  { intros Heq. apply app_inv_head in Heq. discriminate. }
  apply Hdiff. enough ((Returned tt,
             listing_events "contracts.csv" Demo.contracts
             ++ [Print "An error occurred: Exceeds the limit (4300 digits) for integer string conversion: value has 4301 digits; use sys.set_int_max_str_digits() to increase the limit"],
             Demo.world ["out.csv"])
          = (Returned tt,
             listing_events "contracts.csv" Demo.contracts
             ++ [Print "No valid columns selected."],
             Demo.world ["out.csv"])) as Heq by by injection Heq.
  apply Hclaim.
  - rewrite split_all_digits by apply all_digits_times_one.
    constructor; [|constructor]. unfold integer_literal.
    rewrite strip_nonspace by apply all_digits_nonspace, all_digits_times_one.
    change (Py.split_sign (times "1" 4301)) with (false, times "1" 4301).
    cbv beta iota zeta.
    split; [apply all_digits_times_one|]. split; [done|].
    eexists. by rewrite scan_digits_all by apply all_digits_times_one.
  - repeat constructor. unfold in_range. intros [_ Hle].
    apply (proj2 (Z.leb_le _ _)) in Hle. vm_compute in Hle. discriminate.
Qed.
